(** * The yggdrasil data processor: receive and return handlers

    A shallow embedding of [DataProcessor.HandleDataRecvSignal] and
    [DataProcessor.HandleDataReturnSignal], the two loops that consume
    message identifiers from a signal channel, consult the in-memory
    database, optionally talk HTTP, and emit a signal.

    Go constructs are rendered as follows.
    - [interface{}] is the type [any]; the one-result type assertion
      [x.(T)] panics when the dynamic type is not [T] (in particular for
      the nil interface).
    - A function result [(v, err)] is a sum [A + error].
    - [p.db], the log, the emitted signals and the HTTP calls are threaded
      through a state monad; [return] inside the per-message closure and a
      run-time panic are the two ways a computation stops early.
    - Everything the code calls but does not own (go-memdb faults,
      encoding/json, net/http, strings.TrimSpace) is a field of [Env]. *)

From Stdlib Require Import ZArith String List Ascii Bool Lia.
From Stdlib.Strings Require Import Byte.
From Stdlib Require Import OrdersEx Sorted Permutation.
From stdpp Require Import gmap strings list.

Local Open Scope Z_scope.
Local Open Scope string_scope.
Local Open Scope list_scope.

(** ** Constants of the source *)

Definition SignalDataProcess : string := "data-process".
Definition SignalDataConsume : string := "data-consume".

(** Modelled from the spec: the schema constants [tableNameData],
    [indexNameID], [tableNameWorker] and [indexNameHandler] are declared in
    a file that is not among the sources.  Message records are indexed by
    [MessageID] (unique) and Worker records by [Handler] (unique). *)
Definition tableNameData : string := "data".
Definition indexNameID : string := "id".
Definition tableNameWorker : string := "worker".
Definition indexNameHandler : string := "handler".

(** ** Records *)

(** Modelled from the spec: the struct [Data] is declared outside the
    sources; the handlers use the fields [MessageID], [Directive],
    [Content], [Metadata] and [ResponseTo]. *)
Record Data := mkData {
  MessageID : string;
  Directive : string;
  Content : list byte;
  Metadata : gmap string string;
  ResponseTo : string
}.

(** Modelled from the spec: the struct [Worker] is declared outside the
    sources; the handlers read [detachedContent], and the table is indexed
    by the handler name. *)
Record Worker := mkWorker {
  Handler : string;
  detachedContent : bool
}.

(** [dataMessage.Content = data] *)
Definition setContent (d : Data) (data : list byte) : Data :=
  mkData (MessageID d) (Directive d) data (Metadata d) (ResponseTo d).

Inductive error :=
| errorString (s : string)
| APIResponseError (Code : Z) (body : string).

Record Request := mkRequest {
  Method : string;
  URL : string;
  Header : list (string * string);
  ReqBody : list byte
}.

(** An HTTP response: the status code and what [ioutil.ReadAll] yields on
    its body. *)
Record Response := mkResponse {
  StatusCode : Z;
  Body : list byte + error
}.

(** Go's [interface{}], restricted to the dynamic types that occur. *)
Inductive any :=
| Nil
| Str (s : string)
| DataObj (d : Data)
| WorkerObj (w : Worker)
| ReqObj (r : option Request)
| RespObj (r : Response)
| ErrObj (e : error).

(** ** The database *)

Record MemDB := mkMemDB {
  tableData : list Data;
  tableWorker : list Worker
}.

Record Txn := mkTxn {
  snapshot : MemDB;
  writable : bool
}.

Definition lookupData (db : MemDB) (id : string) : option Data :=
  find (fun d => String.eqb (MessageID d) id) (tableData db).

Definition lookupWorker (db : MemDB) (h : string) : option Worker :=
  find (fun w => String.eqb (Handler w) h) (tableWorker db).

(** Modelled from the spec: the table schema is declared outside the
    sources and [tx.Insert] belongs to go-memdb.  Message records are
    indexed by [MessageID] (unique), so an insert replaces in place the
    record that has the same [MessageID], and adds the record when there
    is none. *)
Fixpoint insertData (d : Data) (l : list Data) : list Data :=
  match l with
  | [] => [d]
  | x :: l' =>
      if String.eqb (MessageID x) (MessageID d) then d :: l'
      else x :: insertData d l'
  end.

(** ** The environment *)

Record Env := mkEnv {
  (** [tx.First] failing with an error (not an absent record) *)
  firstErr : string -> string -> string -> option error;
  (** [tx.Insert] failing *)
  insertErr : string -> Data -> option error;
  (** [json.Unmarshal(content, &URL)] for a string target *)
  jsonUnmarshal : list byte -> string + error;
  (** [url.Parse] failing inside [http.NewRequest] *)
  urlParseErr : string -> option error;
  (** the server behind [p.client.Get] *)
  clientGet : string -> Response + error;
  (** the server behind [p.client.Do] *)
  clientDo : Request -> Response + error;
  (** [strings.TrimSpace] *)
  TrimSpace : string -> string
}.

(** ** Observable events, in program order *)

Inductive Level := LError | LInfo | LDebug | LTrace.

Inductive event :=
| Logf (l : Level) (format : string) (args : list any)
| LogError (e : error)
| Emit (name : string) (value : string)
| HTTPGet (url : string)
| HTTPDo (req : Request)
| BodyClose
| TxInsert (table : string) (obj : any)
| TxCommit
| TxAbort
| ChanRecv (e : any).

(** ** The monad of a handler body *)

Record State := mkState {
  db : MemDB;
  trace : list event;
  deferred : list event
}.

Inductive result (A : Type) :=
| Value (a : A)
| Returned
| Panicked (msg : string).
Arguments Value {A} a.
Arguments Returned {A}.
Arguments Panicked {A} msg.

Definition M (A : Type) : Type := State -> result A * State.

Definition ret {A} (a : A) : M A := fun st => (Value a, st).

Definition bind {A B} (m : M A) (k : A -> M B) : M B :=
  fun st =>
    match m st with
    | (Value a, st') => k a st'
    | (Returned, st') => (Returned, st')
    | (Panicked msg, st') => (Panicked msg, st')
    end.

Declare Scope go_scope.
Delimit Scope go_scope with go.
Notation "x <- m ;; k" := (bind m (fun x => k))
  (at level 100, m at next level, right associativity) : go_scope.
Notation "m ;; k" := (bind m (fun _ => k))
  (at level 100, right associativity) : go_scope.
Local Open Scope go_scope.

(** [return] inside the closure *)
Definition doReturn {A} : M A := fun st => (Returned, st).

Definition panic {A} (msg : string) : M A := fun st => (Panicked msg, st).

Definition record (e : event) : M unit :=
  fun st => (Value tt, mkState (db st) (trace st ++ [e]) (deferred st)).

(** [defer f()]: deferred calls run last-in first-out when the closure is
    left. *)
Definition defer (e : event) : M unit :=
  fun st => (Value tt, mkState (db st) (trace st) (e :: deferred st)).

Definition Debugf (format : string) (args : list any) : M unit :=
  record (Logf LDebug format args).
Definition Tracef (format : string) (args : list any) : M unit :=
  record (Logf LTrace format args).
Definition Infof (format : string) (args : list any) : M unit :=
  record (Logf LInfo format args).
Definition Errorf (format : string) (args : list any) : M unit :=
  record (Logf LError format args).
Definition Error (e : error) : M unit := record (LogError e).

(** [p.sig.emit(name, value)] *)
Definition emit (name : string) (value : string) : M unit :=
  record (Emit name value).

(** [if err != nil { p.logger.Error(err); return }] *)
Definition check {A} (r : A + error) : M A :=
  match r with
  | inl a => ret a
  | inr err => Error err ;; doReturn
  end.

(** Type assertions [e.(string)], [obj.(Data)], [obj.(Worker)] *)
Definition assertString (e : any) : M string :=
  match e with
  | Str s => ret s
  | _ => panic "interface conversion: interface {} is not string"
  end.

Definition assertData (obj : any) : M Data :=
  match obj with
  | DataObj d => ret d
  | _ => panic "interface conversion: interface {} is not yggdrasil.Data"
  end.

Definition assertWorker (obj : any) : M Worker :=
  match obj with
  | WorkerObj w => ret w
  | _ => panic "interface conversion: interface {} is not yggdrasil.Worker"
  end.

(** ** go-memdb transactions *)

(** [p.db.Txn(write)] *)
Definition dbTxn (write : bool) : M Txn :=
  fun st => (Value (mkTxn (db st) write), st).

(** [tx.First(table, index, key)]: the matching object, the nil interface
    when there is none, or an error. *)
Definition First (env : Env) (tx : Txn) (table index key : string)
  : any + error :=
  match firstErr env table index key with
  | Some err => inr err
  | None =>
      if String.eqb table tableNameData then
        inl (match lookupData (snapshot tx) key with
             | Some d => DataObj d
             | None => Nil
             end)
      else if String.eqb table tableNameWorker then
        inl (match lookupWorker (snapshot tx) key with
             | Some w => WorkerObj w
             | None => Nil
             end)
      else inr (errorString "invalid table")
  end.

(** [tx.Insert(table, obj)]: on success the transaction holds the new
    table. *)
Definition Insert (env : Env) (tx : Txn) (table : string) (d : Data)
  : M (Txn + error) :=
  record (TxInsert table (DataObj d)) ;;
  ret (if negb (writable tx) then
         inr (errorString "cannot insert in read-only transaction")
       else
         match insertErr env table d with
         | Some err => inr err
         | None =>
             if String.eqb table tableNameData then
               inl (mkTxn (mkMemDB (insertData d (tableData (snapshot tx)))
                                   (tableWorker (snapshot tx)))
                          true)
             else inr (errorString "invalid table")
         end).

(** [tx.Commit()] publishes the transaction's tables. *)
Definition Commit (tx : Txn) : M unit :=
  fun st =>
    (Value tt,
     mkState (if writable tx then snapshot tx else db st)
             (trace st ++ [TxCommit]) (deferred st)).

(** [tx.Abort()] discards them. *)
Definition Abort (tx : Txn) : M unit := record TxAbort.

(** ** HTTP *)

Definition MethodPost : string := "POST".

(** The double quote, for format strings that contain one. *)
Definition dquote : string :=
  String (Ascii false true false false false true false false) EmptyString.

(** [http.NewRequest(method, url, body)]: a request with no header, or nil
    when the URL does not parse.  The handler drops the error. *)
Definition NewRequest (env : Env) (method url : string) (body : list byte)
  : option Request :=
  match urlParseErr env url with
  | Some _ => None
  | None => Some (mkRequest method url [] body)
  end.

Definition addHeader (r : Request) (k v : string) : Request :=
  mkRequest (Method r) (URL r) (Header r ++ [(k, v)]) (ReqBody r).

(** [req.Header.Add(k, v)] through the pointer [req] *)
Definition HeaderAdd (req : option Request) (k v : string)
  : M (option Request) :=
  match req with
  | None => panic "invalid memory address or nil pointer dereference"
  | Some r => ret (Some (addHeader r k v))
  end.

(** [for k, v := range metadata { req.Header.Add(k, strings.TrimSpace(v)) }],
    over the entries in the order the map yields them *)
Fixpoint addHeaders (env : Env) (kvs : list (string * string))
    (req : option Request) : M (option Request) :=
  match kvs with
  | [] => ret req
  | (k, v) :: rest =>
      req' <- HeaderAdd req k (TrimSpace env v) ;;
      addHeaders env rest req'
  end.

(** Modelled from the spec: [HTTPClient.Get] is declared outside the
    sources; it returns a status code and response body, or a transport
    error. *)
Definition Get (env : Env) (url : string) : M (Response + error) :=
  record (HTTPGet url) ;;
  ret (clientGet env url).

(** Modelled from the spec: [HTTPClient.Do] is declared outside the
    sources; it returns a status code and response body, or a transport
    error.  A nil request is dereferenced. *)
Definition Do (env : Env) (req : option Request) : M (Response + error) :=
  match req with
  | None => panic "invalid memory address or nil pointer dereference"
  | Some r =>
      record (HTTPDo r) ;;
      ret (clientDo env r)
  end.

(** [switch { case resp.StatusCode >= 400: ...; return  default: ... }] *)
Definition checkStatus (env : Env) (resp : Response) (data : list byte)
  : M unit :=
  if (400 <=? StatusCode resp)%Z then
    Error (APIResponseError (StatusCode resp)
             (TrimSpace env (string_of_list_byte data))) ;;
    doReturn
  else
    Infof "received HTTP response body: %v"
          [Str (TrimSpace env (string_of_list_byte data))] ;;
    Tracef "received HTTP response: %#v" [RespObj resp].

(** ** The receive handler *)

(** The branch [if worker.detachedContent { ... }] of the receive handler;
    yields [dataMessage] with its content replaced. *)
Definition fetchContent (env : Env) (dataMessage : Data) : M Data :=
  URL <- check (jsonUnmarshal env (Content dataMessage)) ;;
  Tracef "fetching content from %v" [Str URL] ;;
  r <- Get env URL ;;
  resp <- check r ;;
  defer BodyClose ;;
  data <- check (Body resp) ;;
  checkStatus env resp data ;;
  ret (setContent dataMessage data).

(** The closure run for one value [e] received on the channel. *)
Definition recvBody (env : Env) (e : any) : M unit :=
  messageID <- assertString e ;;
  Debugf "HandleDataRecvSignal" [] ;;
  Tracef "received value: %#v" [Str messageID] ;;
  tx <- dbTxn false ;;
  obj <- check (First env tx tableNameData indexNameID messageID) ;;
  dataMessage <- assertData obj ;;
  tx <- dbTxn false ;;
  obj <- check (First env tx tableNameWorker indexNameHandler
                      (Directive dataMessage)) ;;
  match obj with
  | Nil =>
      Errorf "no worker registered to handle '%v' messages"
             [Str (Directive dataMessage)] ;;
      emit SignalDataConsume (MessageID dataMessage) ;;
      Debugf ("emitted signal " ++ dquote ++ "%v" ++ dquote)
             [Str SignalDataConsume] ;;
      Tracef "emitted value: %#v" [Str (MessageID dataMessage)] ;;
      doReturn
  | _ => ret tt
  end ;;
  worker <- assertWorker obj ;;
  dataMessage <- (if detachedContent worker
                  then fetchContent env dataMessage
                  else ret dataMessage) ;;
  tx <- dbTxn true ;;
  r <- Insert env tx tableNameData dataMessage ;;
  tx <- match r with
        | inr err => Error err ;; Abort tx ;; doReturn
        | inl tx' => ret tx'
        end ;;
  Commit tx ;;
  emit SignalDataProcess (MessageID dataMessage) ;;
  Debugf ("emitted signal " ++ dquote ++ "%v" ++ dquote)
         [Str SignalDataProcess] ;;
  Tracef "emitted value: %#v" [Str (MessageID dataMessage)].

(** ** The return handler *)

(** The branch [if worker.detachedContent { ... }] of the return handler. *)
Definition deliver (env : Env) (dataMessage : Data) : M unit :=
  let req := NewRequest env MethodPost (Directive dataMessage)
                        (Content dataMessage) in
  req <- addHeaders env (map_to_list (Metadata dataMessage)) req ;;
  Tracef "created HTTP request: %#v" [ReqObj req] ;;
  r <- Do env req ;;
  resp <- check r ;;
  defer BodyClose ;;
  data <- check (Body resp) ;;
  checkStatus env resp data.

Definition returnBody (env : Env) (e : any) : M unit :=
  messageID <- assertString e ;;
  Debugf "HandleDataReturnSignal" [] ;;
  Tracef "received value: %#v" [Str messageID] ;;
  tx <- dbTxn false ;;
  obj <- check (First env tx tableNameData indexNameID messageID) ;;
  dataMessage <- assertData obj ;;
  tx <- dbTxn false ;;
  obj <- check (First env tx tableNameData indexNameID
                      (ResponseTo dataMessage)) ;;
  originalMessage <- assertData obj ;;
  tx <- dbTxn false ;;
  obj <- check (First env tx tableNameWorker indexNameHandler
                      (Directive originalMessage)) ;;
  worker <- assertWorker obj ;;
  (if detachedContent worker then deliver env dataMessage else ret tt) ;;
  emit SignalDataConsume (MessageID dataMessage) ;;
  Debugf ("emitted signal " ++ dquote ++ "%v" ++ dquote)
         [Str SignalDataConsume] ;;
  Tracef "emitted value: %#v" [Str (MessageID dataMessage)].

(** ** Calling the closure, and the loops over the channel *)

Inductive outcome :=
| Done
| Crashed (msg : string).

(** [func() { ... }()]: the body runs with its own list of deferred calls,
    which run when it is left, by [return], by reaching its end or by a
    panic.  A panic is not recovered: it leaves the closure. *)
Definition call (body : M unit) (st : State) : outcome * State :=
  match body (mkState (db st) (trace st) []) with
  | (r, st') =>
      (match r with
       | Panicked msg => Crashed msg
       | _ => Done
       end,
       mkState (db st') (trace st' ++ deferred st') (deferred st))
  end.

(** [for e := range c { func() { ... }() }]: the values of the channel are
    taken one at a time, in the order they were sent; the loop ends when
    the channel is closed and drained, or when a panic unwinds through
    it. *)
Fixpoint rangeOver (body : any -> M unit) (c : list any) (st : State)
  : outcome * State :=
  match c with
  | [] => (Done, st)
  | e :: c' =>
      match call (record (ChanRecv e) ;; body e) st with
      | (Done, st') => rangeOver body c' st'
      | (Crashed msg, st') => (Crashed msg, st')
      end
  end.

Definition HandleDataRecvSignal (env : Env) (c : list any) (st : State)
  : outcome * State :=
  rangeOver (recvBody env) c st.

Definition HandleDataReturnSignal (env : Env) (c : list any) (st : State)
  : outcome * State :=
  rangeOver (returnBody env) c st.

(** ** Reading a trace *)

(** The signals emitted, as pairs of signal name and value. *)
Definition emits (tr : list event) : list (string * string) :=
  flat_map (fun ev => match ev with Emit n v => [(n, v)] | _ => [] end) tr.

(** The HTTP calls made. *)
Definition httpCalls (tr : list event) : list event :=
  List.filter (fun ev => match ev with HTTPGet _ | HTTPDo _ => true | _ => false end)
         tr.

(** The store writes attempted or committed. *)
Definition writes (tr : list event) : list event :=
  List.filter (fun ev => match ev with
                    | TxInsert _ _ | TxCommit => true
                    | _ => false
                    end) tr.

(** What was reported at error level, through [p.logger.Error] or
    [p.logger.Errorf]. *)
Definition reported (tr : list event) : list event :=
  List.filter (fun ev => match ev with
                         | LogError _ | Logf LError _ _ => true
                         | _ => false
                         end) tr.

(** The values taken from the channel. *)
Definition received (tr : list event) : list any :=
  flat_map (fun ev => match ev with ChanRecv e => [e] | _ => [] end) tr.

(** ** Vocabulary of the statements *)

(** The lookup of [id] in the data table yields the record [d]. *)
Definition resolvesData (env : Env) (db : MemDB) (id : string) (d : Data)
  : Prop :=
  firstErr env tableNameData indexNameID id = None /\
  lookupData db id = Some d.

(** The lookup of [id] in the data table yields no record, and no error. *)
Definition noData (env : Env) (db : MemDB) (id : string) : Prop :=
  firstErr env tableNameData indexNameID id = None /\
  lookupData db id = None.

(** The lookup of the handler [h] in the worker table yields [w]. *)
Definition resolvesWorker (env : Env) (db : MemDB) (h : string) (w : Worker)
  : Prop :=
  firstErr env tableNameWorker indexNameHandler h = None /\
  lookupWorker db h = Some w.

(** No worker is registered for [h]: the lookup yields no record, and no
    error. *)
Definition noWorker (env : Env) (db : MemDB) (h : string) : Prop :=
  firstErr env tableNameWorker indexNameHandler h = None /\
  lookupWorker db h = None.

(** [MessageID] is unique across the Message records. *)
Definition uniqueIDs (db : MemDB) : Prop :=
  NoDup (map MessageID (tableData db)).

(** The request after the loop over the metadata. *)
Definition withHeaders (env : Env) (kvs : list (string * string))
    (r : Request) : Request :=
  fold_left (fun r kv => addHeader r (fst kv) (TrimSpace env (snd kv))) kvs r.

(** The request the return handler sends for the reply [reply]. *)
Definition deliveryRequest (env : Env) (reply : Data) : Request :=
  withHeaders env (map_to_list (Metadata reply))
    (mkRequest MethodPost (Directive reply) [] (Content reply)).

(** The values on which the closure of the receive handler panics: a value
    that is not a string, and an identifier whose lookup yields neither an
    error nor a record. *)
Definition recvPanics (env : Env) (db : MemDB) (e : any) : bool :=
  match e with
  | Str id =>
      match firstErr env tableNameData indexNameID id with
      | Some _ => false
      | None =>
          match lookupData db id with
          | Some _ => false
          | None => true
          end
      end
  | _ => true
  end.

(** The same for the return handler: the reply, the original message and
    the worker are asserted without an absence check, and a destination
    that does not parse leaves a nil request. *)
Definition returnPanics (env : Env) (db : MemDB) (e : any) : bool :=
  match e with
  | Str id =>
      match firstErr env tableNameData indexNameID id with
      | Some _ => false
      | None =>
      match lookupData db id with
      | None => true
      | Some reply =>
      match firstErr env tableNameData indexNameID (ResponseTo reply) with
      | Some _ => false
      | None =>
      match lookupData db (ResponseTo reply) with
      | None => true
      | Some orig =>
      match firstErr env tableNameWorker indexNameHandler (Directive orig) with
      | Some _ => false
      | None =>
      match lookupWorker db (Directive orig) with
      | None => true
      | Some w =>
          detachedContent w &&
          match urlParseErr env (Directive reply) with
          | Some _ => true
          | None => false
          end
      end end end end end end
  | _ => true
  end.



(** ** Further readings of a trace and of the store *)

(** How often a response body was closed. *)
Definition closes (tr : list event) : nat :=
  length (List.filter (fun ev => match ev with
                                 | BodyClose => true
                                 | _ => false
                                 end) tr).

(** An HTTP call that was answered with a response, not a transport
    error. *)
Definition responded (env : Env) (ev : event) : bool :=
  match ev with
  | HTTPGet url =>
      match clientGet env url with inl _ => true | inr _ => false end
  | HTTPDo req =>
      match clientDo env req with inl _ => true | inr _ => false end
  | _ => false
  end.

Definition responses (env : Env) (tr : list event) : nat :=
  length (List.filter (responded env) tr).

(** Whether a transaction was committed, or aborted. *)
Definition committed (tr : list event) : bool :=
  existsb (fun ev => match ev with TxCommit => true | _ => false end) tr.

Definition aborted (tr : list event) : bool :=
  existsb (fun ev => match ev with TxAbort => true | _ => false end) tr.

(** Two records that differ at most in their content. *)
Definition sameButContent (d d' : Data) : Prop :=
  MessageID d' = MessageID d /\
  Directive d' = Directive d /\
  Metadata d' = Metadata d /\
  ResponseTo d' = ResponseTo d.

(** Two stores with the same workers and, position by position, the same
    messages up to their content. *)
Definition sameRouting (db db' : MemDB) : Prop :=
  tableWorker db' = tableWorker db /\
  Forall2 sameButContent (tableData db) (tableData db').

(** The record the receive handler writes back for the message [d] of a
    worker [w]: [d] itself, or [d] with the fetched body [data]. *)
Definition writtenBack (env : Env) (d : Data) (w : Worker) (d' : Data)
  : Prop :=
  (detachedContent w = false /\ d' = d) \/
  (detachedContent w = true /\
   exists url resp data,
     jsonUnmarshal env (Content d) = inl url /\
     clientGet env url = inl resp /\
     Body resp = inl data /\
     StatusCode resp < 400 /\
     d' = setContent d data).

(** ** A concrete world, for the scenarios of the specification *)

Module Scenario.

Definition bytes (s : string) : list byte := list_byte_of_string s.

(** A decoder for plain JSON string literals: the text between the two
    double quotes.  It stands in for [json.Unmarshal] on the inputs used
    below, none of which contains an escape. *)
Definition unquote (content : list byte) : string + error :=
  match content with
  | x22 :: rest =>
      match rev rest with
      | x22 :: inner => inl (string_of_list_byte (rev inner))
      | _ => inr (errorString "unexpected end of JSON input")
      end
  | _ => inr (errorString "invalid character looking for beginning of value")
  end.

Definition get (url : string) : Response + error :=
  if String.eqb url "http://example.test/data" then
    inl (mkResponse 200 (inl (bytes "payload")))
  else if String.eqb url "http://example.test/gone" then
    inl (mkResponse 404 (inl (bytes "not found")))
  else inr (errorString "dial tcp: connection refused").

Definition post (req : Request) : Response + error :=
  if String.eqb (URL req) "http://example.test/return" then
    inl (mkResponse 202 (inl (bytes "accepted")))
  else if String.eqb (URL req) "http://example.test/fail" then
    inl (mkResponse 500 (inl (bytes "internal error")))
  else inr (errorString "dial tcp: connection refused").

Definition env : Env :=
  mkEnv (fun _ _ _ => None) (fun _ _ => None) unquote (fun _ => None)
        get post (fun s => s).

Definition echo : Worker := mkWorker "echo" false.
Definition fetch : Worker := mkWorker "fetch" true.

Definition m1 : Data := mkData "m1" "echo" (bytes "hello") ∅ "".
Definition m2 : Data :=
  mkData "m2" "fetch"
         (bytes (dquote ++ "http://example.test/data" ++ dquote)) ∅ "".
Definition m3 : Data := mkData "m3" "nobody" (bytes "lost") ∅ "".
Definition m4 : Data :=
  mkData "m4" "fetch"
         (bytes (dquote ++ "http://example.test/gone" ++ dquote)) ∅ "".

(** Replies: to [m1] (worker not detached), to [m2] (detached, delivery
    accepted), to a message that is not stored, to [m3] (no worker), to
    [m2] with a failing destination, and to [m2] with an unreachable
    destination. *)
Definition r1 : Data :=
  mkData "r1" "http://example.test/return" (bytes "pong") ∅ "m1".
Definition r2 : Data :=
  mkData "r2" "http://example.test/return" (bytes "pong") ∅ "m2".
Definition r3 : Data :=
  mkData "r3" "http://example.test/return" (bytes "pong") ∅ "m0".
Definition r4 : Data :=
  mkData "r4" "http://example.test/return" (bytes "pong") ∅ "m3".
Definition r5 : Data :=
  mkData "r5" "http://example.test/fail" (bytes "pong") ∅ "m2".
Definition r6 : Data :=
  mkData "r6" "http://example.test/down" (bytes "pong") ∅ "m2".

Definition store : MemDB :=
  mkMemDB [m1; m2; m3; m4; r1; r2; r3; r4; r5; r6] [echo; fetch].

Definition start : State := mkState store [] [].

End Scenario.

(** ** Further cases: failing fetches, a failing store, replies with
    metadata *)

Module Cases.

Import Scenario.

Definition isSpace (c : ascii) : bool :=
  match c with
  | " "%char | "009"%char | "010"%char | "011"%char | "012"%char
  | "013"%char => true
  | _ => false
  end.

Fixpoint trimLeft (l : list ascii) : list ascii :=
  match l with
  | c :: l' => if isSpace c then trimLeft l' else l
  | [] => []
  end.

(** Stands in for [strings.TrimSpace] on ASCII text. *)
Definition trim (s : string) : string :=
  string_of_list_ascii
    (rev (trimLeft (rev (trimLeft (list_ascii_of_string s))))).

Definition get (url : string) : Response + error :=
  if String.eqb url "http://example.test/moved" then
    inl (mkResponse 302 (inl (bytes "elsewhere")))
  else if String.eqb url "http://example.test/broken" then
    inl (mkResponse 200 (inr (errorString "unexpected EOF")))
  else Scenario.get url.

Definition parse (url : string) : option error :=
  if String.eqb url "::bad" then Some (errorString "missing protocol scheme")
  else None.

Definition env : Env :=
  mkEnv (fun _ _ _ => None) (fun _ _ => None) unquote parse get post trim.

(** A store that refuses every insert. *)
Definition envFull : Env :=
  mkEnv (fun _ _ _ => None)
        (fun _ _ => Some (errorString "out of memory"))
        unquote parse get post trim.

(** A store whose worker table cannot be read. *)
Definition envNoWorkers : Env :=
  mkEnv (fun table _ _ =>
           if String.eqb table tableNameWorker
           then Some (errorString "invalid table 'worker'") else None)
        (fun _ _ => None) unquote parse get post trim.

Definition url (s : string) : list byte := bytes (dquote ++ s ++ dquote).

Definition m5 : Data := mkData "m5" "fetch" (bytes "not json") ∅ "".
Definition m6 : Data :=
  mkData "m6" "fetch" (url "http://example.test/down") ∅ "".
Definition m7 : Data :=
  mkData "m7" "fetch" (url "http://example.test/moved") ∅ "".
Definition m8 : Data :=
  mkData "m8" "fetch" (url "http://example.test/broken") ∅ "".

Definition r7 : Data :=
  mkData "r7" "http://example.test/return" (bytes "pong")
         {[ "Content-Type" := " text/plain " ]} "m2".
Definition r8 : Data := mkData "r8" "::bad" (bytes "pong") ∅ "m2".

Definition store : MemDB :=
  mkMemDB [m1; m2; m5; m6; m7; m8; r1; r7; r8] [echo; fetch].

Definition start : State := mkState store [] [].

End Cases.

(** * The command line: cmd/ygg

    The actions of the commands [connect], [disconnect] and [facts].  What
    they call outside the file (the terminal, the host name, subscription
    management, systemd, the facts) is a field of [World]; what they do is
    a trace of [event]s and the error they return. *)

Module Ygg.

Definition nl : string := String "010"%char EmptyString.
Definition tab : string := String "009"%char EmptyString.
Definition esc : string := String "027"%char EmptyString.

(** The black circle U+25CF, in UTF-8. *)
Definition bullet : string :=
  String "226"%char (String "151"%char (String "143"%char EmptyString)).

Definition successPrefix : string := esc ++ "[32m" ++ bullet ++ esc ++ "[0m".
Definition failPrefix : string := esc ++ "[31m" ++ bullet ++ esc ++ "[0m".

Record World := mkWorld {
  (** [yggdrasil.BrandName], a constant of the package *)
  BrandName : string;
  (** [scanner.Scan(); scanner.Text()]: the next line of standard input,
      if there is one *)
  stdinLine : option string;
  (** [terminal.ReadPassword] *)
  readPassword : list byte + error;
  (** [os.Hostname] *)
  osHostname : string + error;
  getConsumerUUID : string + error;
  registerActivationKey : string -> list string -> string -> option error;
  registerPassword : string -> string -> string -> option error;
  activate : option error;
  deactivate : option error;
  unregister : option error;
  getFacts : gmap string string + error;
  (** [json.Marshal] of the facts *)
  jsonMarshal : gmap string string -> list byte + error;
  (** [strings.TrimSpace] *)
  trimSpace : string -> string
}.

Inductive event :=
| Print (s : string)
| ScanStdin
| ReadPassword
| Hostname
| GetConsumerUUID
| RegisterActivationKey (org : string) (keys : list string) (server : string)
| RegisterPassword (username password server : string)
| Activate
| Deactivate
| Unregister
| SpinnerStart (suffix : string)
| SpinnerStop
| GetFacts
| TabWrite (row : string)
| TabFlush.

(** What an action returns: [nil], [cli.Exit(err, code)], or an error as
    it is. *)
Inductive ret :=
| Nil
| Exit (err : error) (code : Z)
| Plain (err : error).

Record St := mkSt {
  out : list event;
  defers : list event
}.

Definition IO (A : Type) : Type := St -> (A + ret) * St.

Definition pure {A} (a : A) : IO A := fun st => (inl a, st).

Definition andThen {A B} (m : IO A) (k : A -> IO B) : IO B :=
  fun st =>
    match m st with
    | (inl a, st') => k a st'
    | (inr r, st') => (inr r, st')
    end.

Declare Scope cli_scope.
Delimit Scope cli_scope with cli.
Notation "x <- m ;; k" := (andThen m (fun x => k))
  (at level 100, m at next level, right associativity) : cli_scope.
Notation "m ;; k" := (andThen m (fun _ => k))
  (at level 100, right associativity) : cli_scope.
Local Open Scope cli_scope.

(** [return r] *)
Definition leave {A} (r : ret) : IO A := fun st => (inr r, st).

Definition does (e : event) : IO unit :=
  fun st => (inl tt, mkSt (out st ++ [e]) (defers st)).

Definition deferring (e : event) : IO unit :=
  fun st => (inl tt, mkSt (out st) (e :: defers st)).

Definition print (s : string) : IO unit := does (Print s).

(** [if err != nil { return cli.Exit(err, 1) }] *)
Definition orExit {A} (r : A + error) : IO A :=
  match r with
  | inl a => pure a
  | inr err => leave (Exit err 1)
  end.

(** Running an action: its result and what it did, the deferred calls
    last. *)
Definition run (m : IO unit) : ret * list event :=
  match m (mkSt [] []) with
  | (r, st) =>
      (match r with inl _ => Nil | inr x => x end, out st ++ defers st)
  end.

Record ConnectFlags := mkConnectFlags {
  username : string;
  password : string;
  organization : string;
  activationKey : list string;
  server : string
}.

(** The credentials of [connect]: asked for on the terminal unless an
    organization is given. *)
Definition credentials (w : World) (f : ConnectFlags) : IO (string * string) :=
  let username := username f in
  let password := password f in
  if String.eqb (organization f) "" then
    up <- (if String.eqb username "" then
             let password := "" in
             print "Username: " ;;
             does ScanStdin ;;
             let username :=
               trimSpace w (match stdinLine w with
                            | Some line => line
                            | None => ""
                            end) in
             pure (username, password)
           else pure (username, password)) ;;
    let username := fst up in
    let password := snd up in
    password <- (if String.eqb password "" then
                   print "Password: " ;;
                   does ReadPassword ;;
                   data <- orExit (readPassword w) ;;
                   let password := string_of_list_byte data in
                   print (nl ++ nl) ;;
                   pure password
                 else pure password) ;;
    pure (username, password)
  else pure (username, password).

(** The action of [connect]. *)
Definition connectAction (w : World) (f : ConnectFlags) : IO unit :=
  up <- credentials w f ;;
  let username := fst up in
  let password := snd up in
  does Hostname ;;
  hostname <- orExit (osHostname w) ;;
  print ("Connecting " ++ hostname ++ " to cloud.redhat.com." ++ nl
         ++ "This might take a few seconds." ++ nl ++ nl) ;;
  does GetConsumerUUID ;;
  uuid <- orExit (getConsumerUUID w) ;;
  (if String.eqb uuid "" then
     does (SpinnerStart " Connecting to Red Hat Subscription Manager...") ;;
     err <- (if negb (String.eqb (organization f) "") then
               does (RegisterActivationKey (organization f) (activationKey f)
                       (server f)) ;;
               pure (registerActivationKey w (organization f)
                       (activationKey f) (server f))
             else
               does (RegisterPassword username password (server f)) ;;
               pure (registerPassword w username password (server f))) ;;
     match err with
     | Some err => does SpinnerStop ;; leave (Exit err 1)
     | None => pure tt
     end ;;
     does SpinnerStop ;;
     print (successPrefix ++ " Connected to Red Hat Subscription Manager"
            ++ nl)
   else
     print (successPrefix
            ++ " This system is already connected to Red Hat Subscription Manager"
            ++ nl)) ;;
  does (SpinnerStart (" Activating the " ++ BrandName w ++ " daemon")) ;;
  does Activate ;;
  match activate w with
  | Some err => does SpinnerStop ;; leave (Exit err 1)
  | None => pure tt
  end ;;
  does SpinnerStop ;;
  print (successPrefix ++ " Activated the " ++ BrandName w ++ " daemon" ++ nl) ;;
  print (nl ++ "See all your connected systems: http://red.ht/connector"
         ++ nl) ;;
  leave Nil.

(** The action of [disconnect]. *)
Definition disconnectAction (w : World) : IO unit :=
  does Hostname ;;
  hostname <- orExit (osHostname w) ;;
  print ("Disconnecting " ++ hostname ++ " from cloud.redhat.com." ++ nl
         ++ "This might take a few seconds." ++ nl ++ nl) ;;
  deferring SpinnerStop ;;
  does (SpinnerStart " Disconnecting...") ;;
  does Deactivate ;;
  match deactivate w with
  | Some err => leave (Exit err 1)
  | None => pure tt
  end ;;
  does Unregister ;;
  match unregister w with
  | Some err => leave (Exit err 1)
  | None => pure tt
  end ;;
  does SpinnerStop ;;
  print (nl ++ "See all your connected systems: http://red.ht/connector"
         ++ nl) ;;
  leave Nil.

(** [sort.Strings]: ascending in the order of [<] on strings, which
    compares byte by byte.  The keys of a map are distinct, so the result
    does not depend on the sorting algorithm. *)
Fixpoint insertSorted (k : string) (l : list string) : list string :=
  match l with
  | [] => [k]
  | x :: l' => if String.leb k x then k :: l else x :: insertSorted k l'
  end.

Definition sortStrings (l : list string) : list string :=
  fold_right insertSorted [] l.

(** [facts[k]] printed with [%v]: the value, or nothing for a missing
    key. *)
Definition valueOf (facts : gmap string string) (k : string) : string :=
  match facts !! k with
  | Some v => v
  | None => ""
  end.

(** [fmt.Fprintf(w, "%v\t%v\n", k, facts[k])] *)
Definition row (facts : gmap string string) (k : string) : string :=
  k ++ tab ++ valueOf facts k ++ nl.

Fixpoint writeRows (facts : gmap string string) (keys : list string)
  : IO unit :=
  match keys with
  | [] => pure tt
  | k :: keys' => does (TabWrite (row facts k)) ;; writeRows facts keys'
  end.

(** The action of [facts], for the value [format] of [--format]. *)
Definition factsAction (w : World) (format : string) : IO unit :=
  does GetFacts ;;
  facts <- orExit (getFacts w) ;;
  (if String.eqb format "json" then
     data <- orExit (jsonMarshal w facts) ;;
     print (string_of_list_byte data)
   else if String.eqb format "table" then
     let keys := map fst (map_to_list facts) in
     let keys := sortStrings keys in
     writeRows facts keys ;;
     does TabFlush
   else
     leave (Exit (errorString ("unsupported value for '--format': " ++ format))
                 1)) ;;
  leave Nil.

(** Reading a trace. *)
Definition registrations (tr : list event) : list event :=
  List.filter (fun e => match e with
                        | RegisterActivationKey _ _ _
                        | RegisterPassword _ _ _ => true
                        | _ => false
                        end) tr.

Definition prompts (tr : list event) : list event :=
  List.filter (fun e => match e with
                        | ScanStdin | ReadPassword => true
                        | _ => false
                        end) tr.

Definition count (p : event -> bool) (tr : list event) : nat :=
  length (List.filter p tr).

Definition isStart (e : event) : bool :=
  match e with SpinnerStart _ => true | _ => false end.

Definition isStop (e : event) : bool :=
  match e with SpinnerStop => true | _ => false end.

Definition rows (tr : list event) : list string :=
  flat_map (fun e => match e with TabWrite r => [r] | _ => [] end) tr.

Definition setPassword (f : ConnectFlags) (p : string) : ConnectFlags :=
  mkConnectFlags (username f) p (organization f) (activationKey f) (server f).

(** A registration call of the trace succeeded. *)
Definition succeeded (w : World) (e : event) : Prop :=
  match e with
  | RegisterActivationKey org keys server =>
      registerActivationKey w org keys server = None
  | RegisterPassword u p server => registerPassword w u p server = None
  | _ => True
  end.

Definition ascending (a b : string) : Prop := String.leb a b = true.

(** A host for the examples. *)
Definition host : World :=
  mkWorld "Red Hat connector" (Some " alice ")
          (inl (list_byte_of_string "secret")) (inl "box.example.test")
          (inl "") (fun _ _ _ => None) (fun _ _ _ => None) None None None
          (inl {[ "cpu.arch" := "x86_64"; "bios.vendor" := "SeaBIOS";
                  "memory.total" := "16G" ]})
          (fun _ => inl (list_byte_of_string "{}"))
          (fun s => s).

(** The same host once it is registered. *)
Definition registeredHost : World :=
  mkWorld "Red Hat connector" (Some " alice ")
          (inl (list_byte_of_string "secret")) (inl "box.example.test")
          (inl "6a1cbd2e-8c5e-4b8e-9f0a-1a2b3c4d5e6f")
          (fun _ _ _ => None) (fun _ _ _ => None) None None None
          (inr (errorString "dmidecode: permission denied"))
          (fun _ => inl (list_byte_of_string "{}"))
          (fun s => s).

Definition withKey : ConnectFlags :=
  mkConnectFlags "ignored" "ignored" "acme" ["key-1"; "key-2"]
                 "https://subscription.example.test".

Definition bare : ConnectFlags :=
  mkConnectFlags "" "from-the-command-line" "" [] "".

End Ygg.

(** * Properties *)

(** ** Reading a trace that grows *)

Lemma emits_app tr1 tr2 : emits (tr1 ++ tr2) = emits tr1 ++ emits tr2.
Proof. unfold emits. now rewrite flat_map_app. Qed.

Lemma httpCalls_app tr1 tr2 :
  httpCalls (tr1 ++ tr2) = httpCalls tr1 ++ httpCalls tr2.
Proof. unfold httpCalls. apply List.filter_app. Qed.

Lemma writes_app tr1 tr2 : writes (tr1 ++ tr2) = writes tr1 ++ writes tr2.
Proof. unfold writes. apply List.filter_app. Qed.

Lemma reported_app tr1 tr2 :
  reported (tr1 ++ tr2) = reported tr1 ++ reported tr2.
Proof. unfold reported. apply List.filter_app. Qed.

Lemma received_app tr1 tr2 :
  received (tr1 ++ tr2) = received tr1 ++ received tr2.
Proof. unfold received. now rewrite flat_map_app. Qed.

(** ** The store *)

Lemma First_data env tx key :
  firstErr env tableNameData indexNameID key = None ->
  First env tx tableNameData indexNameID key =
  inl (match lookupData (snapshot tx) key with
       | Some d => DataObj d
       | None => Nil
       end).
Proof. intros H. unfold First. now rewrite H. Qed.

Lemma First_worker env tx key :
  firstErr env tableNameWorker indexNameHandler key = None ->
  First env tx tableNameWorker indexNameHandler key =
  inl (match lookupWorker (snapshot tx) key with
       | Some w => WorkerObj w
       | None => Nil
       end).
Proof. intros H. unfold First. now rewrite H. Qed.

Lemma First_err env tx table index key err :
  firstErr env table index key = Some err ->
  First env tx table index key = inr err.
Proof. intros H. unfold First. now rewrite H. Qed.

Lemma lookupData_id db id d : lookupData db id = Some d -> MessageID d = id.
Proof.
  unfold lookupData. intros H. apply find_some in H as [_ H].
  now apply String.eqb_eq.
Qed.

Lemma lookupData_In db id d :
  lookupData db id = Some d -> In d (tableData db).
Proof. unfold lookupData. intros H. now apply find_some in H as [H _]. Qed.

Lemma lookupData_stored db id d :
  lookupData db id = Some d -> In (MessageID d) (map MessageID (tableData db)).
Proof. intros H. apply in_map. eapply lookupData_In, H. Qed.


Lemma insertData_ids d l :
  In (MessageID d) (map MessageID l) ->
  map MessageID (insertData d l) = map MessageID l.
Proof.
  induction l as [|x l IH]; simpl; [tauto|].
  destruct (String.eqb (MessageID x) (MessageID d)) eqn:E.
  - intros _. apply String.eqb_eq in E. simpl. now rewrite E.
  - intros [H|H].
    + apply String.eqb_neq in E. congruence.
    + simpl. now rewrite IH.
Qed.

Lemma insertData_fresh d l :
  ~ In (MessageID d) (map MessageID l) ->
  map MessageID (insertData d l) = map MessageID l ++ [MessageID d].
Proof.
  induction l as [|x l IH]; simpl; [reflexivity|].
  intros H. destruct (String.eqb (MessageID x) (MessageID d)) eqn:E.
  - apply String.eqb_eq in E. tauto.
  - simpl. rewrite IH; tauto.
Qed.

Lemma insertData_unique d l :
  NoDup (map MessageID l) -> NoDup (map MessageID (insertData d l)).
Proof.
  intros H.
  destruct (in_dec string_dec (MessageID d) (map MessageID l)) as [Hin|Hin].
  - now rewrite insertData_ids.
  - rewrite insertData_fresh by assumption.
    apply NoDup_app. split; [assumption|]. split.
    + intros x Hx Hd. apply list_elem_of_singleton in Hd. subst x.
      apply Hin. now apply list_elem_of_In.
    + apply NoDup_singleton.
Qed.

Lemma insertData_find_same d l id :
  MessageID d = id ->
  find (fun x => String.eqb (MessageID x) id) (insertData d l) = Some d.
Proof.
  intros <-. induction l as [|x l IH]; simpl.
  - now rewrite String.eqb_refl.
  - destruct (String.eqb (MessageID x) (MessageID d)) eqn:E; simpl.
    + now rewrite String.eqb_refl.
    + now rewrite E.
Qed.

(** ** The request built by the return handler *)

Lemma addHeaders_some env kvs r st :
  addHeaders env kvs (Some r) st = (Value (Some (withHeaders env kvs r)), st).
Proof.
  revert r. induction kvs as [|[k v] kvs IH]; intros r; simpl.
  - reflexivity.
  - unfold bind, HeaderAdd, ret. apply IH.
Qed.

Lemma addHeaders_none env kvs st :
  addHeaders env kvs None st =
  (match kvs with
   | [] => Value None
   | _ => Panicked "invalid memory address or nil pointer dereference"
   end, st).
Proof. destruct kvs as [|[k v] kvs]; reflexivity. Qed.

(** ** Running a handler body on a symbolic state *)

Ltac unfold_go :=
  unfold call, recvBody, returnBody, fetchContent, deliver, checkStatus,
    Get, Do, Insert, Commit, Abort, dbTxn, check, assertString, assertData,
    assertWorker, emit, Debugf, Tracef, Infof, Errorf, Error, record, defer,
    doReturn, panic, bind, ret.

Ltac norm_trace :=
  rewrite ?emits_app, ?httpCalls_app, ?writes_app, ?reported_app,
    ?received_app, ?app_nil_r; simpl.

(** Case analysis on the innermost term a [match] of the goal inspects. *)
Ltac case_scrutinee :=
  match goal with
  | |- context [match ?x with _ => _ end] =>
      lazymatch x with
      | context [match _ with _ => _ end] => fail
      | _ => destruct x eqn:?
      end
  end.

Ltac split_paths :=
  simpl;
  repeat (first [ rewrite addHeaders_some
                | rewrite addHeaders_none
                | case_scrutinee ]; simpl).

(** Rewriting with what is known about the term a [match] inspects. *)
Ltac step_known :=
  match goal with
  | H : ?x = _ |- context [match ?x with _ => _ end] => rewrite H
  end.

Ltac open_facts :=
  unfold resolvesData, noData, resolvesWorker, noWorker in *;
  repeat match goal with
         | H : _ /\ _ |- _ => destruct H
         end.

Ltac run_known :=
  open_facts; unfold_go; unfold First, NewRequest; simpl;
  repeat (first [ rewrite addHeaders_some
                | rewrite addHeaders_none
                | step_known ]; simpl).

(** ** The receive path, case by case *)

(** C6: an inbound message whose directive matches no registered worker is
    retired: the receive handler emits the message's identifier exactly
    once, on "data-consume", attempts no store write, and the record, hence
    its content, is left as it was. *)
Theorem recv_unregistered_directive_retires env st id d :
  resolvesData env (db st) id d ->
  noWorker env (db st) (Directive d) ->
  exists st' new,
    call (recvBody env (Str id)) st = (Done, st') /\
    trace st' = trace st ++ new /\
    emits new = [(SignalDataConsume, MessageID d)] /\
    writes new = [] /\
    db st' = db st /\
    lookupData (db st') id = Some d.
Proof.
  intros Hd Hw. do 2 eexists. split.
  - run_known. reflexivity.
  - simpl. rewrite <- !app_assoc. simpl. split; [reflexivity|].
    open_facts. auto.
Qed.

(** C4: for a detached worker and a GET answered with status 200, the
    record stored after the commit carries the response body, byte for
    byte, as its content, and the message's identifier is emitted exactly
    once, on "data-process". *)
Theorem recv_detached_stores_body env st id d w url body :
  resolvesData env (db st) id d ->
  resolvesWorker env (db st) (Directive d) w ->
  detachedContent w = true ->
  jsonUnmarshal env (Content d) = inl url ->
  clientGet env url = inl (mkResponse 200 (inl body)) ->
  insertErr env tableNameData (setContent d body) = None ->
  exists st' new,
    call (recvBody env (Str id)) st = (Done, st') /\
    trace st' = trace st ++ new /\
    lookupData (db st') id = Some (setContent d body) /\
    Content (setContent d body) = body /\
    httpCalls new = [HTTPGet url] /\
    emits new = [(SignalDataProcess, MessageID d)].
Proof.
  intros Hd Hw Hdet Hjson Hget Hins. do 2 eexists. split.
  - run_known. reflexivity.
  - simpl. rewrite <- !app_assoc. simpl. split; [reflexivity|].
    open_facts. repeat split.
    unfold lookupData. simpl. apply insertData_find_same.
    simpl. eapply lookupData_id; eassumption.
Qed.

(** C5: for a detached worker and a GET answered with a status of 400 or
    more, the receive handler emits nothing, in particular no "ready"
    value, attempts no store write, and the store is the one it found. *)
Theorem recv_detached_error_status env st id d w url resp :
  resolvesData env (db st) id d ->
  resolvesWorker env (db st) (Directive d) w ->
  detachedContent w = true ->
  jsonUnmarshal env (Content d) = inl url ->
  clientGet env url = inl resp ->
  400 <= StatusCode resp ->
  exists st' new,
    call (recvBody env (Str id)) st = (Done, st') /\
    trace st' = trace st ++ new /\
    emits new = [] /\
    writes new = [] /\
    db st' = db st /\
    lookupData (db st') id = Some d.
Proof.
  intros Hd Hw Hdet Hjson Hget Hcode.
  apply Z.leb_le in Hcode.
  destruct (Body resp) as [data|err] eqn:Hbody.
  - do 2 eexists. split.
    + run_known. reflexivity.
    + simpl. rewrite <- !app_assoc. simpl. split; [reflexivity|].
      open_facts. auto.
  - do 2 eexists. split.
    + run_known. reflexivity.
    + simpl. rewrite <- !app_assoc. simpl. split; [reflexivity|].
      open_facts. auto.
Qed.

(** ** The return path, case by case *)

(** C7: for a reply whose original message's worker is not detached, the
    return handler emits the reply's identifier on "data-consume" and makes
    no HTTP call. *)
Theorem return_attached_retires_without_http env st id reply orig w :
  resolvesData env (db st) id reply ->
  resolvesData env (db st) (ResponseTo reply) orig ->
  resolvesWorker env (db st) (Directive orig) w ->
  detachedContent w = false ->
  exists st' new,
    call (returnBody env (Str id)) st = (Done, st') /\
    trace st' = trace st ++ new /\
    emits new = [(SignalDataConsume, MessageID reply)] /\
    httpCalls new = [].
Proof.
  intros Hr Ho Hw Hdet. do 2 eexists. split.
  - run_known. reflexivity.
  - simpl. rewrite <- !app_assoc. simpl. auto.
Qed.

(** C10: on the return path the result of the worker lookup is asserted to
    be a worker without an absence check.  When no worker is registered for
    the original message's directive, the assertion panics: there is no
    retirement as on the receive path, nothing is emitted, nothing is
    reported at error level and no HTTP call is made. *)
Theorem return_unregistered_worker_panics env st id reply orig :
  resolvesData env (db st) id reply ->
  resolvesData env (db st) (ResponseTo reply) orig ->
  noWorker env (db st) (Directive orig) ->
  exists msg st' new,
    call (returnBody env (Str id)) st = (Crashed msg, st') /\
    trace st' = trace st ++ new /\
    emits new = [] /\
    reported new = [] /\
    httpCalls new = [] /\
    db st' = db st.
Proof.
  intros Hr Ho Hw. do 3 eexists. split.
  - run_known. reflexivity.
  - simpl. rewrite <- !app_assoc. simpl. auto 10.
Qed.


(** C1, as the code has it: for a reply whose original message's worker is
    detached, the return handler sends the request and emits the reply's
    identifier on "data-consume" exactly when the delivery succeeds: a
    response arrives, its body is read and its status is below 400.  After
    a transport failure, a failed read of the body or a status of 400 or
    more it reports one error and returns without emitting anything. *)
Theorem return_detached_retires_on_success env st id reply orig w :
  resolvesData env (db st) id reply ->
  resolvesData env (db st) (ResponseTo reply) orig ->
  resolvesWorker env (db st) (Directive orig) w ->
  detachedContent w = true ->
  urlParseErr env (Directive reply) = None ->
  exists st' new,
    call (returnBody env (Str id)) st = (Done, st') /\
    trace st' = trace st ++ new /\
    httpCalls new = [HTTPDo (deliveryRequest env reply)] /\
    match clientDo env (deliveryRequest env reply) with
    | inr err =>
        emits new = [] /\ reported new = [LogError err]
    | inl resp =>
        match Body resp with
        | inr err => emits new = [] /\ reported new = [LogError err]
        | inl data =>
            if (400 <=? StatusCode resp)%Z
            then emits new = [] /\
                 reported new =
                 [LogError (APIResponseError (StatusCode resp)
                    (TrimSpace env (string_of_list_byte data)))]
            else emits new = [(SignalDataConsume, MessageID reply)] /\
                 reported new = []
        end
    end.
Proof.
  intros Hr Ho Hw Hdet Hurl.
  unfold deliveryRequest.
  destruct (clientDo env
              (withHeaders env (map_to_list (Metadata reply))
                 (mkRequest MethodPost (Directive reply) [] (Content reply))))
    as [resp|err] eqn:Hdo;
    [destruct (Body resp) as [data|err] eqn:Hbody;
     [destruct (400 <=? StatusCode resp)%Z eqn:Hcode|]|].
  all: do 2 eexists; split; [run_known; reflexivity|].
  all: simpl; rewrite <- !app_assoc; simpl; auto.
Qed.

(** ** One turn of the loop, on every path *)

Ltac note_ids :=
  repeat match goal with
         | H : lookupData _ _ = Some _ |- _ =>
             pose proof (lookupData_stored _ _ _ H);
             apply lookupData_id in H
         end;
  subst.

Ltac close_path :=
  note_ids;
  do 3 eexists; (split; [reflexivity|]); simpl;
  rewrite <- ?app_assoc; simpl;
  rewrite ?insertData_ids by assumption;
  repeat (split; [first [reflexivity | split; congruence]|]);
  first [ left; reflexivity
        | right; do 2 eexists; split; reflexivity ].

Lemma recv_call_cases env st e :
  exists o st' new,
    call (record (ChanRecv e) ;; recvBody env e) st = (o, st') /\
    trace st' = trace st ++ ChanRecv e :: new /\
    deferred st' = deferred st /\
    (o = Done <-> recvPanics env (db st) e = false) /\
    map MessageID (tableData (db st')) = map MessageID (tableData (db st)) /\
    received new = [] /\
    (emits new = [] \/ exists name id, e = Str id /\ emits new = [(name, id)]).
Proof.
  unfold recvPanics. unfold_go. unfold First.
  split_paths; close_path.
Qed.

Lemma return_call_cases env st e :
  exists o st' new,
    call (record (ChanRecv e) ;; returnBody env e) st = (o, st') /\
    trace st' = trace st ++ ChanRecv e :: new /\
    deferred st' = deferred st /\
    (o = Done <-> returnPanics env (db st) e = false) /\
    db st' = db st /\
    received new = [] /\
    (emits new = [] \/ exists name id, e = Str id /\ emits new = [(name, id)]).
Proof.
  unfold returnPanics. unfold_go. unfold First, NewRequest.
  split_paths; close_path.
Qed.

(** ** The loops *)


Lemma rangeOver_invariant (I : State -> Prop) body :
  (forall e st, I st -> I (snd (call (record (ChanRecv e) ;; body e) st))) ->
  forall c st, I st -> I (snd (rangeOver body c st)).
Proof.
  intros Hstep c. induction c as [|e c IH]; intros st Hst; simpl.
  - exact Hst.
  - specialize (Hstep e st Hst).
    destruct (call (record (ChanRecv e);; body e) st) as [[|msg] st'];
      simpl in *; auto.
Qed.

Lemma recv_loop_ids env c st :
  map MessageID (tableData (db (snd (HandleDataRecvSignal env c st)))) =
  map MessageID (tableData (db st)).
Proof.
  unfold HandleDataRecvSignal.
  apply (rangeOver_invariant
           (fun s => map MessageID (tableData (db s)) =
                     map MessageID (tableData (db st)))); [|reflexivity].
  intros e s Hs.
  destruct (recv_call_cases env s e) as (o & s' & new & Hc & _ & _ & _ & H & _).
  rewrite Hc. simpl. congruence.
Qed.

Lemma return_loop_db env c st :
  db (snd (HandleDataReturnSignal env c st)) = db st.
Proof.
  unfold HandleDataReturnSignal.
  apply (rangeOver_invariant (fun s => db s = db st)); [|reflexivity].
  intros e s Hs.
  destruct (return_call_cases env s e) as (o & s' & new & Hc & _ & _ & _ & H & _).
  rewrite Hc. simpl. congruence.
Qed.

(** C8: uniqueness of [MessageID] is an invariant of the store.  An insert
    never leaves two records with one identifier; the write-back of the
    receive handler is keyed by the identifier of the record it read, so it
    replaces that record and the table keeps its identifiers and its
    length; the return handler does not write.  Hence uniqueness before a
    handler runs gives uniqueness after any number of messages. *)
Theorem unique_ids_preserved env c st :
  uniqueIDs (db st) ->
  (forall d,
      uniqueIDs (mkMemDB (insertData d (tableData (db st)))
                         (tableWorker (db st)))) /\
  (forall id d data,
      lookupData (db st) id = Some d ->
      length (insertData (setContent d data) (tableData (db st))) =
      length (tableData (db st))) /\
  uniqueIDs (db (snd (HandleDataRecvSignal env c st))) /\
  length (tableData (db (snd (HandleDataRecvSignal env c st)))) =
  length (tableData (db st)) /\
  uniqueIDs (db (snd (HandleDataReturnSignal env c st))).
Proof.
  unfold uniqueIDs. intros Huniq. repeat split.
  - intros d. simpl. now apply insertData_unique.
  - intros id d data Hd.
    rewrite <- (length_map MessageID (insertData _ _)).
    rewrite insertData_ids; [apply length_map|].
    simpl. eapply lookupData_stored, Hd.
  - now rewrite recv_loop_ids.
  - rewrite <- (length_map MessageID), recv_loop_ids. apply length_map.
  - now rewrite return_loop_db.
Qed.



(** ** Order of processing *)







(** * The scenarios *)

(** ** Where the code differs from the text *)

(** Counterexample to C1 as stated: the worker of the original message
    [m2] is detached; the delivery of the reply [r5] is answered with
    status 500, that of [r6] fails in the transport.  Both attempts
    complete, the handler returns, and in neither case is anything
    emitted. *)
Lemma return_failed_delivery_not_retired :
  resolvesData Scenario.env Scenario.store "r5" Scenario.r5 /\
  resolvesData Scenario.env Scenario.store "r6" Scenario.r6 /\
  resolvesData Scenario.env Scenario.store "m2" Scenario.m2 /\
  resolvesWorker Scenario.env Scenario.store "fetch" Scenario.fetch /\
  detachedContent Scenario.fetch = true /\
  clientDo Scenario.env (deliveryRequest Scenario.env Scenario.r5) =
  inl (mkResponse 500 (inl (Scenario.bytes "internal error"))) /\
  clientDo Scenario.env (deliveryRequest Scenario.env Scenario.r6) =
  inr (errorString "dial tcp: connection refused") /\
  fst (call (returnBody Scenario.env (Str "r5")) Scenario.start) = Done /\
  httpCalls
    (trace (snd (call (returnBody Scenario.env (Str "r5")) Scenario.start)))
  = [HTTPDo (deliveryRequest Scenario.env Scenario.r5)] /\
  emits
    (trace (snd (call (returnBody Scenario.env (Str "r5")) Scenario.start)))
  = [] /\
  fst (call (returnBody Scenario.env (Str "r6")) Scenario.start) = Done /\
  httpCalls
    (trace (snd (call (returnBody Scenario.env (Str "r6")) Scenario.start)))
  = [HTTPDo (deliveryRequest Scenario.env Scenario.r6)] /\
  emits
    (trace (snd (call (returnBody Scenario.env (Str "r6")) Scenario.start)))
  = [].
Proof. unfold resolvesData, resolvesWorker. repeat split. Qed.



(** ** The theorems at work *)

(** The first scenario of the specification: the worker "echo" is not
    detached, so [m1] is announced on "data-process" and its stored content
    is still "hello". *)
Example recv_echo_scenario :
  fst (HandleDataRecvSignal Scenario.env [Str "m1"] Scenario.start) = Done /\
  emits
    (trace (snd (HandleDataRecvSignal Scenario.env [Str "m1"]
                   Scenario.start)))
  = [(SignalDataProcess, "m1")] /\
  lookupData
    (db (snd (HandleDataRecvSignal Scenario.env [Str "m1"] Scenario.start)))
    "m1"
  = Some Scenario.m1 /\
  Content Scenario.m1 = Scenario.bytes "hello".
Proof. repeat split. Qed.

Ltac by_computation := unfold resolvesData, noData, resolvesWorker, noWorker;
  repeat split; try reflexivity; try (simpl; lia).

(** The reply [r2] to [m2], whose worker is detached, is delivered and
    accepted with status 202: it is retired. *)
Lemma return_detached_retires_on_success_witness :
  exists st' new,
    call (returnBody Scenario.env (Str "r2")) Scenario.start = (Done, st') /\
    trace st' = trace Scenario.start ++ new /\
    httpCalls new = [HTTPDo (deliveryRequest Scenario.env Scenario.r2)] /\
    emits new = [(SignalDataConsume, "r2")] /\
    reported new = [].
Proof.
  apply (return_detached_retires_on_success Scenario.env Scenario.start "r2"
           Scenario.r2 Scenario.m2 Scenario.fetch); by_computation.
Defined.


(** The second scenario of the specification: [m2] is fetched from
    http://example.test/data, which answers 200 with the body "payload". *)
Lemma recv_detached_stores_body_witness :
  exists st' new,
    call (recvBody Scenario.env (Str "m2")) Scenario.start = (Done, st') /\
    trace st' = trace Scenario.start ++ new /\
    lookupData (db st') "m2" =
    Some (setContent Scenario.m2 (Scenario.bytes "payload")) /\
    Content (setContent Scenario.m2 (Scenario.bytes "payload")) =
    Scenario.bytes "payload" /\
    httpCalls new = [HTTPGet "http://example.test/data"] /\
    emits new = [(SignalDataProcess, "m2")].
Proof.
  apply (recv_detached_stores_body Scenario.env Scenario.start "m2"
           Scenario.m2 Scenario.fetch "http://example.test/data"
           (Scenario.bytes "payload")); by_computation.
Defined.

(** [m4] is to be fetched from http://example.test/gone, which answers
    404. *)
Lemma recv_detached_error_status_witness :
  exists st' new,
    call (recvBody Scenario.env (Str "m4")) Scenario.start = (Done, st') /\
    trace st' = trace Scenario.start ++ new /\
    emits new = [] /\
    writes new = [] /\
    db st' = db Scenario.start /\
    lookupData (db st') "m4" = Some Scenario.m4.
Proof.
  apply (recv_detached_error_status Scenario.env Scenario.start "m4"
           Scenario.m4 Scenario.fetch "http://example.test/gone"
           (mkResponse 404 (inl (Scenario.bytes "not found"))));
    by_computation.
Defined.

(** No worker serves the directive "nobody" of [m3]. *)
Lemma recv_unregistered_directive_retires_witness :
  exists st' new,
    call (recvBody Scenario.env (Str "m3")) Scenario.start = (Done, st') /\
    trace st' = trace Scenario.start ++ new /\
    emits new = [(SignalDataConsume, "m3")] /\
    writes new = [] /\
    db st' = db Scenario.start /\
    lookupData (db st') "m3" = Some Scenario.m3.
Proof.
  apply (recv_unregistered_directive_retires Scenario.env Scenario.start "m3"
           Scenario.m3); by_computation.
Defined.

(** The reply [r1] answers [m1], whose worker "echo" is not detached. *)
Lemma return_attached_retires_without_http_witness :
  exists st' new,
    call (returnBody Scenario.env (Str "r1")) Scenario.start = (Done, st') /\
    trace st' = trace Scenario.start ++ new /\
    emits new = [(SignalDataConsume, "r1")] /\
    httpCalls new = [].
Proof.
  apply (return_attached_retires_without_http Scenario.env Scenario.start
           "r1" Scenario.r1 Scenario.m1 Scenario.echo); by_computation.
Defined.

(** The reply [r4] answers [m3], for whose directive no worker is
    registered. *)
Lemma return_unregistered_worker_panics_witness :
  exists msg st' new,
    call (returnBody Scenario.env (Str "r4")) Scenario.start
    = (Crashed msg, st') /\
    trace st' = trace Scenario.start ++ new /\
    emits new = [] /\
    reported new = [] /\
    httpCalls new = [] /\
    db st' = db Scenario.start.
Proof.
  apply (return_unregistered_worker_panics Scenario.env Scenario.start "r4"
           Scenario.r4 Scenario.m3); by_computation.
Defined.

Lemma scenario_unique : uniqueIDs Scenario.store.
Proof.
  unfold uniqueIDs. apply (bool_decide_unpack _). vm_compute. exact I.
Defined.

(** The identifiers of the scenario's store stay unique while the receive
    handler rewrites [m1] and [m2]. *)
Lemma unique_ids_preserved_witness :
  uniqueIDs
    (db (snd (HandleDataRecvSignal Scenario.env [Str "m1"; Str "m2"]
                Scenario.start))) /\
  length
    (tableData
       (db (snd (HandleDataRecvSignal Scenario.env [Str "m1"; Str "m2"]
                   Scenario.start)))) = 10%nat.
Proof.
  destruct (unique_ids_preserved Scenario.env [Str "m1"; Str "m2"]
              Scenario.start scenario_unique) as (_ & _ & H1 & H2 & _).
  split; [exact H1 | exact H2].
Defined.


(** * More of the handlers *)

(** ** The receive path after the lookups *)

Lemma insertData_same d l id :
  find (fun x => String.eqb (MessageID x) id) l = Some d ->
  insertData d l = l.
Proof.
  induction l as [|x l IH]; simpl; [discriminate|].
  destruct (String.eqb (MessageID x) id) eqn:E.
  - intros [= ->]. now rewrite String.eqb_refl.
  - intros H. pose proof H as Hd. apply find_some in Hd as [_ Hd].
    apply String.eqb_eq in Hd. rewrite Hd, E. now rewrite IH.
Qed.

Lemma store_eta (m : MemDB) : mkMemDB (tableData m) (tableWorker m) = m.
Proof. now destruct m. Qed.

Ltac new_trace :=
  simpl; rewrite <- ?app_assoc; simpl; split; [reflexivity|].

(** X1: for a worker that is not detached the content is passed through
    verbatim: no HTTP call, the record is written back as it was read, so
    the store after the commit is the store before, and the identifier is
    emitted once on "data-process". *)
Theorem recv_attached_passes_content env st id d w :
  resolvesData env (db st) id d ->
  resolvesWorker env (db st) (Directive d) w ->
  detachedContent w = false ->
  insertErr env tableNameData d = None ->
  exists st' new,
    call (recvBody env (Str id)) st = (Done, st') /\
    trace st' = trace st ++ new /\
    httpCalls new = [] /\
    writes new = [TxInsert tableNameData (DataObj d); TxCommit] /\
    db st' = db st /\
    emits new = [(SignalDataProcess, MessageID d)] /\
    reported new = [].
Proof.
  intros Hd Hw Hdet Hins. do 2 eexists. split.
  - run_known. reflexivity.
  - new_trace. open_facts. repeat split.
    unfold lookupData in *. erewrite insertData_same by eassumption.
    apply store_eta.
Qed.

(** X2: for a detached worker whose message content is not a JSON string,
    the decoding error is the one thing reported; no HTTP call is made,
    nothing is written and nothing is emitted. *)
Theorem recv_malformed_content env st id d w err :
  resolvesData env (db st) id d ->
  resolvesWorker env (db st) (Directive d) w ->
  detachedContent w = true ->
  jsonUnmarshal env (Content d) = inr err ->
  exists st' new,
    call (recvBody env (Str id)) st = (Done, st') /\
    trace st' = trace st ++ new /\
    reported new = [LogError err] /\
    httpCalls new = [] /\
    writes new = [] /\
    emits new = [] /\
    db st' = db st.
Proof.
  intros Hd Hw Hdet Hjson. do 2 eexists. split.
  - run_known. reflexivity.
  - new_trace. auto 10.
Qed.

(** X3: when the GET fails in the transport, the one call made is that
    GET, its error is the one thing reported, there is no response body to
    close, and nothing is written or emitted. *)
Theorem recv_transport_failure env st id d w url err :
  resolvesData env (db st) id d ->
  resolvesWorker env (db st) (Directive d) w ->
  detachedContent w = true ->
  jsonUnmarshal env (Content d) = inl url ->
  clientGet env url = inr err ->
  exists st' new,
    call (recvBody env (Str id)) st = (Done, st') /\
    trace st' = trace st ++ new /\
    httpCalls new = [HTTPGet url] /\
    reported new = [LogError err] /\
    closes new = 0%nat /\
    writes new = [] /\
    emits new = [] /\
    db st' = db st.
Proof.
  intros Hd Hw Hdet Hjson Hget. do 2 eexists. split.
  - run_known. reflexivity.
  - new_trace. auto 10.
Qed.

(** X4: when the response arrives but its body cannot be read, whatever
    the status, the read error is the one thing reported, the body is
    closed once, and nothing is written or emitted. *)
Theorem recv_unreadable_body env st id d w url resp err :
  resolvesData env (db st) id d ->
  resolvesWorker env (db st) (Directive d) w ->
  detachedContent w = true ->
  jsonUnmarshal env (Content d) = inl url ->
  clientGet env url = inl resp ->
  Body resp = inr err ->
  exists st' new,
    call (recvBody env (Str id)) st = (Done, st') /\
    trace st' = trace st ++ new /\
    reported new = [LogError err] /\
    closes new = 1%nat /\
    writes new = [] /\
    emits new = [] /\
    db st' = db st.
Proof.
  intros Hd Hw Hdet Hjson Hget Hbody. do 2 eexists. split.
  - run_known. reflexivity.
  - new_trace. auto 10.
Qed.


(** X6: when the store refuses the write-back, the transaction is aborted
    and never committed, the store is unchanged, the error is reported and
    no signal is emitted, so a body that was fetched is lost. *)
Theorem recv_failed_write_aborts env st id d w d' err :
  resolvesData env (db st) id d ->
  resolvesWorker env (db st) (Directive d) w ->
  writtenBack env d w d' ->
  insertErr env tableNameData d' = Some err ->
  exists st' new,
    call (recvBody env (Str id)) st = (Done, st') /\
    trace st' = trace st ++ new /\
    writes new = [TxInsert tableNameData (DataObj d')] /\
    aborted new = true /\
    committed new = false /\
    reported new = [LogError err] /\
    emits new = [] /\
    db st' = db st.
Proof.
  intros Hd Hw [[Hdet ->]|(Hdet & url & resp & data & Hjson & Hget & Hbody
                            & Hcode & ->)] Hins.
  - do 2 eexists. split.
    + run_known. reflexivity.
    + new_trace. auto 10.
  - apply Z.leb_gt in Hcode. do 2 eexists. split.
    + run_known. reflexivity.
    + new_trace. auto 10.
Qed.

(** X7: a store error on either lookup of the receive path, as opposed to
    an absent record, is reported and ends the message: no HTTP call, no
    write, no signal, not even the retirement an absent worker gets. *)
Theorem recv_lookup_error env st id err :
  firstErr env tableNameData indexNameID id = Some err \/
  (exists d, resolvesData env (db st) id d /\
             firstErr env tableNameWorker indexNameHandler (Directive d)
             = Some err) ->
  exists st' new,
    call (recvBody env (Str id)) st = (Done, st') /\
    trace st' = trace st ++ new /\
    reported new = [LogError err] /\
    httpCalls new = [] /\
    writes new = [] /\
    emits new = [] /\
    db st' = db st.
Proof.
  intros [Hf|(d & Hd & Hf)].
  - do 2 eexists. split.
    + run_known. reflexivity.
    + new_trace. auto 10.
  - do 2 eexists. split.
    + run_known. reflexivity.
    + new_trace. auto 10.
Qed.

(** ** The return path: the request, and the failures before it *)

Lemma withHeaders_shape env kvs r :
  Method (withHeaders env kvs r) = Method r /\
  URL (withHeaders env kvs r) = URL r /\
  ReqBody (withHeaders env kvs r) = ReqBody r /\
  Header (withHeaders env kvs r) =
  Header r ++ map (fun kv => (fst kv, TrimSpace env (snd kv))) kvs.
Proof.
  unfold withHeaders. revert r.
  induction kvs as [|[k v] kvs IH]; intros r; simpl.
  - now rewrite app_nil_r.
  - destruct (IH (addHeader r k (TrimSpace env v))) as (-> & -> & -> & ->).
    simpl. now rewrite <- app_assoc.
Qed.



(** X9: the error of [http.NewRequest] is dropped.  When the reply's
    [Directive] does not parse as a URL the request is nil and the handler
    panics on it: nothing is sent, reported or emitted. *)
Theorem return_unparsable_destination_panics env st id reply orig w err :
  resolvesData env (db st) id reply ->
  resolvesData env (db st) (ResponseTo reply) orig ->
  resolvesWorker env (db st) (Directive orig) w ->
  detachedContent w = true ->
  urlParseErr env (Directive reply) = Some err ->
  exists msg st' new,
    call (returnBody env (Str id)) st = (Crashed msg, st') /\
    trace st' = trace st ++ new /\
    httpCalls new = [] /\
    reported new = [] /\
    emits new = [].
Proof.
  intros Hr Ho Hw Hdet Hurl.
  destruct (map_to_list (Metadata reply)) as [|kv kvs] eqn:Hkvs.
  - do 3 eexists. split.
    + run_known. reflexivity.
    + new_trace. auto.
  - do 3 eexists. split.
    + run_known. reflexivity.
    + new_trace. auto.
Qed.

(** X10: a store error on any of the three lookups of the return path is
    reported and ends the message without a panic; nothing is sent and the
    reply is not retired. *)
Theorem return_lookup_error env st id err :
  firstErr env tableNameData indexNameID id = Some err \/
  (exists reply,
      resolvesData env (db st) id reply /\
      (firstErr env tableNameData indexNameID (ResponseTo reply) = Some err \/
       exists orig,
         resolvesData env (db st) (ResponseTo reply) orig /\
         firstErr env tableNameWorker indexNameHandler (Directive orig)
         = Some err)) ->
  exists st' new,
    call (returnBody env (Str id)) st = (Done, st') /\
    trace st' = trace st ++ new /\
    reported new = [LogError err] /\
    httpCalls new = [] /\
    emits new = [].
Proof.
  intros [Hf|(reply & Hr & [Hf|(orig & Ho & Hf)])].
  all: do 2 eexists; split; [run_known; reflexivity|].
  all: new_trace; auto.
Qed.

(** ** What holds on every path *)

Ltac known_responses :=
  unfold closes, responses; simpl;
  repeat (step_known; simpl).

(** X11: on every path of both closures a response body is closed exactly
    when a response was obtained: at most one HTTP call is made per
    message, its body is closed once if the server answered and never if
    the transport failed, and the close is the last thing the closure
    does. *)
Theorem response_body_closed_once env st e :
  (exists o st' new,
      call (recvBody env e) st = (o, st') /\
      trace st' = trace st ++ new /\
      closes new = responses env new /\
      (length (httpCalls new) <= 1)%nat /\
      (closes new = 1%nat -> last new = Some BodyClose)) /\
  (exists o st' new,
      call (returnBody env e) st = (o, st') /\
      trace st' = trace st ++ new /\
      closes new = responses env new /\
      (length (httpCalls new) <= 1)%nat /\
      (closes new = 1%nat -> last new = Some BodyClose)).
Proof.
  split.
  - unfold_go. unfold First.
    split_paths.
    all: do 3 eexists; (split; [reflexivity|]); new_trace.
    all: known_responses; repeat split; try lia; try reflexivity; try discriminate.
  - unfold_go. unfold First, NewRequest.
    split_paths.
    all: do 3 eexists; (split; [reflexivity|]); new_trace.
    all: known_responses; repeat split; try lia; try reflexivity; try discriminate.
Qed.

Lemma withHeaders_Method env kvs r : Method (withHeaders env kvs r) = Method r.
Proof. apply withHeaders_shape. Qed.


(** X13: the return closure never writes: on every path the store is the
    one it found and no insert or commit is attempted.  It emits nothing or
    the value it received, on "data-consume", and every HTTP call it makes
    is a POST. *)
Theorem return_signal_discipline env st e :
  exists o st' new,
    call (returnBody env e) st = (o, st') /\
    trace st' = trace st ++ new /\
    db st' = db st /\
    writes new = [] /\
    (emits new = [] \/
     exists id, e = Str id /\ emits new = [(SignalDataConsume, id)]) /\
    Forall (fun ev => exists req, ev = HTTPDo req /\ Method req = "POST")
           (httpCalls new).
Proof.
  unfold_go. unfold First, NewRequest.
  split_paths.
  all: note_ids.
  all: do 3 eexists; (split; [reflexivity|]); new_trace.
  all: repeat (split; [reflexivity|]).
  all: split; [first [left; reflexivity | right; eexists; split; reflexivity]|].
  all: repeat constructor.
  all: eexists; split; [reflexivity|]; now rewrite withHeaders_Method.
Qed.

Lemma insertData_find_other d l id :
  MessageID d <> id ->
  find (fun x => String.eqb (MessageID x) id) (insertData d l) =
  find (fun x => String.eqb (MessageID x) id) l.
Proof.
  intros Hne. apply String.eqb_neq in Hne.
  induction l as [|x l IH]; simpl.
  - now rewrite Hne.
  - destruct (String.eqb (MessageID x) (MessageID d)) eqn:E; simpl.
    + apply String.eqb_eq in E. rewrite E. now rewrite Hne.
    + now rewrite IH.
Qed.

Lemma sameButContent_refl d : sameButContent d d.
Proof. now repeat split. Qed.

Lemma sameButContent_trans d1 d2 d3 :
  sameButContent d1 d2 -> sameButContent d2 d3 -> sameButContent d1 d3.
Proof. unfold sameButContent. intuition congruence. Qed.

Lemma sameRouting_refl m : sameRouting m m.
Proof.
  split; [reflexivity|].
  induction (tableData m); constructor; auto using sameButContent_refl.
Qed.

Lemma sameRouting_trans m1 m2 m3 :
  sameRouting m1 m2 -> sameRouting m2 m3 -> sameRouting m1 m3.
Proof.
  intros [Hw1 Hd1] [Hw2 Hd2]. split; [congruence|].
  revert Hd2. generalize (tableData m3).
  induction Hd1 as [|x y l1 l2 Hxy _ IH]; intros l3 Hd2;
    inversion Hd2; subst; constructor; eauto using sameButContent_trans.
Qed.

Lemma insertData_sameRouting d d' l id :
  find (fun x => String.eqb (MessageID x) id) l = Some d ->
  sameButContent d d' ->
  Forall2 sameButContent l (insertData d' l).
Proof.
  intros Hfind Hsame.
  assert (MessageID d = id) as Hid.
  { apply find_some in Hfind as [_ H]. now apply String.eqb_eq. }
  destruct Hsame as (Hm & Hrest).
  induction l as [|x l IH]; simpl in *; [discriminate|].
  rewrite Hm, Hid.
  destruct (String.eqb (MessageID x) id) eqn:E.
  - injection Hfind as ->. constructor.
    + split; assumption.
    + clear. induction l; constructor; auto using sameButContent_refl.
  - constructor; [apply sameButContent_refl|]. now apply IH.
Qed.

Lemma recv_call_frame env st e :
  exists o st' new,
    call (recvBody env e) st = (o, st') /\
    trace st' = trace st ++ new /\
    sameRouting (db st) (db st') /\
    (forall id', e <> Str id' ->
                 lookupData (db st') id' = lookupData (db st) id').
Proof.
  unfold_go. unfold First.
  split_paths.
  all: do 3 eexists; (split; [reflexivity|]); new_trace.
  all: try (split; [apply sameRouting_refl | reflexivity]).
  all: split;
    [ split; [reflexivity|]; simpl;
      eapply insertData_sameRouting; [eassumption|];
      repeat split
    | intros id' Hne; unfold lookupData; simpl;
      apply insertData_find_other; simpl;
      match goal with
      | H : lookupData _ _ = Some _ |- _ => apply lookupData_id in H
      end; congruence ].
Qed.

(** ** More on the loops *)





Lemma call_record ev m st :
  call (record ev ;; m) st =
  call m (mkState (db st) (trace st ++ [ev]) (deferred st)).
Proof. reflexivity. Qed.

Lemma recv_loop_sameRouting env c st :
  sameRouting (db st) (db (snd (HandleDataRecvSignal env c st))).
Proof.
  unfold HandleDataRecvSignal.
  apply (rangeOver_invariant (fun s => sameRouting (db st) (db s)));
    [|apply sameRouting_refl].
  intros e s Hs. rewrite call_record.
  destruct (recv_call_frame env
              (mkState (db s) (trace s ++ [ChanRecv e]) (deferred s)) e)
    as (o & s' & new & Hc & _ & Hsame & _).
  rewrite Hc. simpl in *. eapply sameRouting_trans; eassumption.
Qed.

Lemma sameRouting_lookupData m m' id :
  sameRouting m m' ->
  match lookupData m id, lookupData m' id with
  | Some d, Some d' => sameButContent d d'
  | None, None => True
  | _, _ => False
  end.
Proof.
  intros [_ H]. unfold lookupData.
  induction H as [|x y l l' Hxy _ IH]; simpl; [exact I|].
  destruct Hxy as (Hm & Hrest). rewrite Hm.
  destruct (String.eqb (MessageID x) id); [|exact IH].
  split; assumption.
Qed.

Lemma sameRouting_lookupWorker m m' h :
  sameRouting m m' -> lookupWorker m' h = lookupWorker m h.
Proof. intros [H _]. unfold lookupWorker. now rewrite H. Qed.

Lemma recvPanics_sameRouting env m m' e :
  sameRouting m m' -> recvPanics env m' e = recvPanics env m e.
Proof.
  intros H. unfold recvPanics. destruct e; try reflexivity.
  destruct (firstErr env tableNameData indexNameID s); [reflexivity|].
  pose proof (sameRouting_lookupData m m' s H) as Hl.
  destruct (lookupData m s), (lookupData m' s); tauto.
Qed.

Lemma returnPanics_sameRouting env m m' e :
  sameRouting m m' -> returnPanics env m' e = returnPanics env m e.
Proof.
  intros H. unfold returnPanics. destruct e; try reflexivity.
  destruct (firstErr env tableNameData indexNameID s); [reflexivity|].
  pose proof (sameRouting_lookupData m m' s H) as Hl.
  destruct (lookupData m s) as [d|], (lookupData m' s) as [d'|];
    try tauto.
  destruct Hl as (_ & Hdir & _ & Hresp). rewrite Hresp, Hdir.
  destruct (firstErr env tableNameData indexNameID (ResponseTo d));
    [reflexivity|].
  pose proof (sameRouting_lookupData m m' (ResponseTo d) H) as Hl.
  destruct (lookupData m (ResponseTo d)) as [o|],
           (lookupData m' (ResponseTo d)) as [o'|]; try tauto.
  destruct Hl as (_ & Hdir' & _). rewrite Hdir'.
  destruct (firstErr env tableNameWorker indexNameHandler (Directive o));
    [reflexivity|].
  now rewrite (sameRouting_lookupWorker m m').
Qed.

(** X17: however many values the receive handler processes, it leaves the
    worker table and every record's [MessageID], [Directive], [Metadata]
    and [ResponseTo] as they were.  So the values on which either closure
    panics are the same after the run as before it. *)
Theorem recv_loop_keeps_routing env env' c st e :
  sameRouting (db st) (db (snd (HandleDataRecvSignal env c st))) /\
  recvPanics env' (db (snd (HandleDataRecvSignal env c st))) e =
  recvPanics env' (db st) e /\
  returnPanics env' (db (snd (HandleDataRecvSignal env c st))) e =
  returnPanics env' (db st) e.
Proof.
  pose proof (recv_loop_sameRouting env c st) as H. repeat split.
  - apply H.
  - apply H.
  - now apply recvPanics_sameRouting.
  - now apply returnPanics_sameRouting.
Qed.

(** X14: one run of the receive closure changes at most the content of
    the record it was sent for: workers and all other fields of all
    records stay, and the lookup of any other identifier gives what it gave
    before. *)
Theorem recv_changes_content_only env st e :
  exists o st' new,
    call (recvBody env e) st = (o, st') /\
    trace st' = trace st ++ new /\
    sameRouting (db st) (db st') /\
    (forall id', e <> Str id' ->
                 lookupData (db st') id' = lookupData (db st) id').
Proof. apply recv_call_frame. Qed.

(** ** The further cases at work *)

Lemma recv_attached_passes_content_witness :
  exists st' new,
    call (recvBody Cases.env (Str "m1")) Cases.start = (Done, st') /\
    trace st' = trace Cases.start ++ new /\
    httpCalls new = [] /\
    writes new = [TxInsert tableNameData (DataObj Scenario.m1); TxCommit] /\
    db st' = db Cases.start /\
    emits new = [(SignalDataProcess, "m1")] /\
    reported new = [].
Proof.
  apply (recv_attached_passes_content Cases.env Cases.start "m1" Scenario.m1
           Scenario.echo); by_computation.
Defined.

Lemma recv_malformed_content_witness :
  exists st' new,
    call (recvBody Cases.env (Str "m5")) Cases.start = (Done, st') /\
    trace st' = trace Cases.start ++ new /\
    reported new =
    [LogError
       (errorString "invalid character looking for beginning of value")] /\
    httpCalls new = [] /\
    writes new = [] /\
    emits new = [] /\
    db st' = db Cases.start.
Proof.
  apply (recv_malformed_content Cases.env Cases.start "m5" Cases.m5
           Scenario.fetch); by_computation.
Defined.

Lemma recv_transport_failure_witness :
  exists st' new,
    call (recvBody Cases.env (Str "m6")) Cases.start = (Done, st') /\
    trace st' = trace Cases.start ++ new /\
    httpCalls new = [HTTPGet "http://example.test/down"] /\
    reported new = [LogError (errorString "dial tcp: connection refused")] /\
    closes new = 0%nat /\
    writes new = [] /\
    emits new = [] /\
    db st' = db Cases.start.
Proof.
  apply (recv_transport_failure Cases.env Cases.start "m6" Cases.m6
           Scenario.fetch "http://example.test/down"); by_computation.
Defined.

Lemma recv_unreadable_body_witness :
  exists st' new,
    call (recvBody Cases.env (Str "m8")) Cases.start = (Done, st') /\
    trace st' = trace Cases.start ++ new /\
    reported new = [LogError (errorString "unexpected EOF")] /\
    closes new = 1%nat /\
    writes new = [] /\
    emits new = [] /\
    db st' = db Cases.start.
Proof.
  apply (recv_unreadable_body Cases.env Cases.start "m8" Cases.m8
           Scenario.fetch "http://example.test/broken"
           (mkResponse 200 (inr (errorString "unexpected EOF"))));
    by_computation.
Defined.


(** The payload of [m2] is fetched, then the store refuses it. *)
Lemma recv_failed_write_aborts_witness :
  exists st' new,
    call (recvBody Cases.envFull (Str "m2")) Cases.start = (Done, st') /\
    trace st' = trace Cases.start ++ new /\
    writes new =
    [TxInsert tableNameData
       (DataObj (setContent Scenario.m2 (Scenario.bytes "payload")))] /\
    aborted new = true /\
    committed new = false /\
    reported new = [LogError (errorString "out of memory")] /\
    emits new = [] /\
    db st' = db Cases.start.
Proof.
  apply (recv_failed_write_aborts Cases.envFull Cases.start "m2" Scenario.m2
           Scenario.fetch
           (setContent Scenario.m2 (Scenario.bytes "payload"))).
  - by_computation.
  - by_computation.
  - right. split; [reflexivity|].
    exists "http://example.test/data",
           (mkResponse 200 (inl (Scenario.bytes "payload"))),
           (Scenario.bytes "payload").
    by_computation.
  - reflexivity.
Defined.

Lemma recv_lookup_error_witness :
  exists st' new,
    call (recvBody Cases.envNoWorkers (Str "m1")) Cases.start = (Done, st') /\
    trace st' = trace Cases.start ++ new /\
    reported new = [LogError (errorString "invalid table 'worker'")] /\
    httpCalls new = [] /\
    writes new = [] /\
    emits new = [] /\
    db st' = db Cases.start.
Proof.
  apply (recv_lookup_error Cases.envNoWorkers Cases.start "m1").
  right. exists Scenario.m1. by_computation.
Defined.


Example return_trimmed_header :
  Header (deliveryRequest Cases.env Cases.r7)
  = [("Content-Type", "text/plain")].
Proof. vm_compute. reflexivity. Qed.

Lemma return_unparsable_destination_panics_witness :
  exists msg st' new,
    call (returnBody Cases.env (Str "r8")) Cases.start
    = (Crashed msg, st') /\
    trace st' = trace Cases.start ++ new /\
    httpCalls new = [] /\
    reported new = [] /\
    emits new = [].
Proof.
  apply (return_unparsable_destination_panics Cases.env Cases.start "r8"
           Cases.r8 Scenario.m2 Scenario.fetch
           (errorString "missing protocol scheme")); by_computation.
Defined.

Lemma return_lookup_error_witness :
  exists st' new,
    call (returnBody Cases.envNoWorkers (Str "r1")) Cases.start
    = (Done, st') /\
    trace st' = trace Cases.start ++ new /\
    reported new = [LogError (errorString "invalid table 'worker'")] /\
    httpCalls new = [] /\
    emits new = [].
Proof.
  apply (return_lookup_error Cases.envNoWorkers Cases.start "r1").
  right. exists Scenario.r1. split; [by_computation|].
  right. exists Scenario.m1. by_computation.
Defined.

(** * The command line *)

Module CommandLine.

Import Ygg.

Ltac unfold_cli :=
  unfold run, connectAction, credentials, disconnectAction, factsAction,
    orExit, print, does, deferring, leave, andThen, pure.

Ltac cli_paths := simpl; repeat (case_scrutinee; simpl).

(** ** connect *)

(** X18: with [--organization] the terminal is never read, whatever the
    other flags are, and the only registration [connect] can attempt is the
    one by activation key, with the organization, keys and server given. *)
Theorem connect_organization_never_prompts w f :
  organization f <> "" ->
  prompts (snd (run (connectAction w f))) = [] /\
  Forall (fun e => e = RegisterActivationKey (organization f)
                         (activationKey f) (server f))
         (registrations (snd (run (connectAction w f)))).
Proof.
  intros Horg. apply String.eqb_neq in Horg.
  unfold_cli. rewrite Horg. cli_paths.
  all: split; [reflexivity|]; repeat constructor.
Qed.

(** X19: without an organization and without a user name, a password given
    on the command line is dropped: [connect] behaves as if none had been
    given, asks for both the user name and the password, and registers
    with the trimmed line and the password that were typed. *)
Theorem connect_prompts_for_both w f line data hostname :
  organization f = "" ->
  username f = "" ->
  stdinLine w = Some line ->
  readPassword w = inl data ->
  osHostname w = inl hostname ->
  getConsumerUUID w = inl "" ->
  run (connectAction w f) = run (connectAction w (setPassword f "")) /\
  prompts (snd (run (connectAction w f))) = [ScanStdin; ReadPassword] /\
  registrations (snd (run (connectAction w f))) =
  [RegisterPassword (trimSpace w line) (string_of_list_byte data)
                    (server f)].
Proof.
  intros Horg Huser Hline Hdata Hhost Huuid.
  unfold_cli. simpl. rewrite Horg, Huser, Hline, Hdata, Hhost, Huuid. simpl.
  cli_paths; repeat split.
Qed.

(** X20: on a system that already has a consumer UUID, [connect] registers
    nothing; when it returns without an error it has activated the
    daemon. *)
Theorem connect_registered_skips_registration w f uuid :
  getConsumerUUID w = inl uuid ->
  uuid <> "" ->
  registrations (snd (run (connectAction w f))) = [] /\
  (fst (run (connectAction w f)) = Nil ->
   In Activate (snd (run (connectAction w f))) /\ activate w = None).
Proof.
  intros Hget Huuid. apply String.eqb_neq in Huuid.
  unfold_cli. rewrite Hget. simpl. rewrite Huuid. cli_paths.
  all: split; [reflexivity|]; try discriminate.
  all: intros _; split; [|reflexivity]; simpl; tauto.
Qed.

(** X21: on every path of [connect], each spinner that was started is
    stopped; at most one registration is attempted, and the daemon is
    activated only after it succeeded; the action returns nil only after a
    successful activation, and otherwise exits with code 1. *)
Theorem connect_exits_and_spinners w f :
  count isStart (snd (run (connectAction w f))) =
  count isStop (snd (run (connectAction w f))) /\
  (length (registrations (snd (run (connectAction w f)))) <= 1)%nat /\
  (In Activate (snd (run (connectAction w f))) ->
   Forall (succeeded w) (registrations (snd (run (connectAction w f))))) /\
  match fst (run (connectAction w f)) with
  | Nil => In Activate (snd (run (connectAction w f))) /\ activate w = None
  | Exit _ code => code = 1
  | Plain _ => False
  end.
Proof.
  unfold_cli. cli_paths.
  all: unfold count; simpl.
  all: repeat split; try reflexivity; try lia; try tauto.
  all: try (intros H; repeat constructor; simpl; assumption).
  all: try (intros H; exfalso; intuition discriminate).
Qed.

(** ** disconnect *)


(** ** facts *)

Lemma compare_OT s t : String.compare s t = String_as_OT.compare s t.
Proof.
  revert t. induction s as [|a s IH]; destruct t as [|b t]; simpl; auto.
  all: try (rewrite IH; reflexivity).
Qed.

Lemma lt_irrefl s : ~ String_as_OT.lt s s.
Proof. apply (@StrictOrder_Irreflexive _ _ String_as_OT.lt_strorder). Qed.

Lemma lt_trans s t u :
  String_as_OT.lt s t -> String_as_OT.lt t u -> String_as_OT.lt s u.
Proof. apply (@StrictOrder_Transitive _ _ String_as_OT.lt_strorder). Qed.

Lemma ascending_lt s t : ascending s t <-> s = t \/ String_as_OT.lt s t.
Proof.
  unfold ascending, String.leb. rewrite compare_OT.
  destruct (String_as_OT.compare_spec s t) as [H|H|H];
    unfold String_as_OT.eq in *.
  - tauto.
  - tauto.
  - split; [discriminate|]. intros [->|H']; exfalso.
    + eapply lt_irrefl, H.
    + eapply lt_irrefl, lt_trans; eassumption.
Qed.

Lemma ascending_trans s t u : ascending s t -> ascending t u -> ascending s u.
Proof.
  rewrite !ascending_lt. intros [->|H1] [->|H2]; eauto using lt_trans.
Qed.

Lemma ascending_total s t : ascending s t \/ ascending t s.
Proof. apply String.leb_total. Qed.

Lemma insertSorted_perm k l : Permutation (insertSorted k l) (k :: l).
Proof.
  induction l as [|x l IH]; simpl; [reflexivity|].
  destruct (String.leb k x); [reflexivity|].
  rewrite IH. apply perm_swap.
Qed.

Lemma sortStrings_perm l : Permutation (sortStrings l) l.
Proof.
  induction l as [|k l IH]; simpl; [reflexivity|].
  rewrite insertSorted_perm. now constructor.
Qed.

Lemma insertSorted_sorted k l :
  StronglySorted ascending l -> StronglySorted ascending (insertSorted k l).
Proof.
  induction 1 as [|x l Hl IH Hx]; simpl.
  - repeat constructor.
  - destruct (String.leb k x) eqn:E.
    + constructor; [now constructor|]. constructor; [exact E|].
      eapply Forall_impl; [exact Hx|].
      intros y Hy. eapply ascending_trans; [exact E|exact Hy].
    + constructor; [exact IH|].
      assert (ascending x k) as Hxk.
      { destruct (ascending_total k x) as [H|H]; [|exact H].
        unfold ascending in H. congruence. }
      apply Forall_forall. intros y Hy.
      apply list_elem_of_In in Hy.
      apply (Permutation_in _ (insertSorted_perm k l)) in Hy.
      destruct Hy as [<-|Hy]; [exact Hxk|].
      rewrite Forall_forall in Hx. apply Hx. now apply list_elem_of_In.
Qed.

Lemma sortStrings_sorted l : StronglySorted ascending (sortStrings l).
Proof.
  induction l as [|k l IH]; simpl; [constructor|].
  now apply insertSorted_sorted.
Qed.

Lemma writeRows_trace facts keys st :
  writeRows facts keys st =
  (inl tt,
   mkSt (out st ++ map (fun k => TabWrite (row facts k)) keys) (defers st)).
Proof.
  revert st. induction keys as [|k keys IH]; intros st; simpl.
  - rewrite app_nil_r. now destruct st.
  - unfold andThen, does. simpl. rewrite IH. simpl.
    now rewrite <- app_assoc.
Qed.

(** X23: [facts --format table] writes one row per fact, each fact once,
    in ascending order of the keys, each row holding the key, a tab, the
    fact's value and a newline; then it flushes the table once and returns
    nil. *)
Theorem facts_table_sorted w facts :
  getFacts w = inl facts ->
  exists keys,
    run (factsAction w "table") =
    (Nil, GetFacts :: map (fun k => TabWrite (row facts k)) keys
            ++ [TabFlush]) /\
    StronglySorted ascending keys /\
    NoDup keys /\
    (forall k, In k keys <-> exists v, facts !! k = Some v) /\
    (forall k v, facts !! k = Some v -> row facts k = (k ++ tab ++ v ++ nl)%string).
Proof.
  intros Hfacts.
  exists (sortStrings (map fst (map_to_list facts))). repeat split.
  - unfold_cli. rewrite Hfacts. simpl. rewrite writeRows_trace. simpl.
    now rewrite app_nil_r.
  - apply sortStrings_sorted.
  - rewrite sortStrings_perm. apply NoDup_fst_map_to_list.
  - intros Hin.
    apply (Permutation_in _ (sortStrings_perm _)) in Hin.
    apply in_map_iff in Hin as ([k0 v] & <- & Hin).
    exists v. apply elem_of_map_to_list. now apply list_elem_of_In.
  - intros (v & Hv).
    apply (Permutation_in _ (Permutation_sym (sortStrings_perm _))).
    apply in_map_iff. exists (k, v). split; [reflexivity|].
    apply list_elem_of_In. now apply elem_of_map_to_list.
  - intros k v Hv. unfold row, valueOf. now rewrite Hv.
Qed.

(** X24: a value of [--format] other than "json" and "table" is refused
    with an error that names it and exit code 1, and nothing is printed;
    but the facts are gathered first, so when that fails its error is the
    one returned. *)
Theorem facts_unsupported_format w format :
  format <> "json" ->
  format <> "table" ->
  run (factsAction w format) =
  match getFacts w with
  | inl _ =>
      (Exit (errorString ("unsupported value for '--format': " ++ format)) 1,
       [GetFacts])
  | inr err => (Exit err 1, [GetFacts])
  end.
Proof.
  intros Hjson Htable.
  apply String.eqb_neq in Hjson. apply String.eqb_neq in Htable.
  unfold_cli. simpl. destruct (getFacts w); simpl; [|reflexivity].
  rewrite Hjson, Htable. reflexivity.
Qed.

End CommandLine.

(** ** The command line at work *)

Lemma connect_organization_never_prompts_witness :
  Ygg.prompts (snd (Ygg.run (Ygg.connectAction Ygg.host Ygg.withKey))) = [] /\
  Forall (fun e => e = Ygg.RegisterActivationKey "acme" ["key-1"; "key-2"]
                         "https://subscription.example.test")
         (Ygg.registrations
            (snd (Ygg.run (Ygg.connectAction Ygg.host Ygg.withKey)))).
Proof.
  apply (CommandLine.connect_organization_never_prompts Ygg.host Ygg.withKey).
  discriminate.
Defined.

Lemma connect_prompts_for_both_witness :
  Ygg.run (Ygg.connectAction Ygg.host Ygg.bare) =
  Ygg.run (Ygg.connectAction Ygg.host (Ygg.setPassword Ygg.bare "")) /\
  Ygg.prompts (snd (Ygg.run (Ygg.connectAction Ygg.host Ygg.bare))) =
  [Ygg.ScanStdin; Ygg.ReadPassword] /\
  Ygg.registrations (snd (Ygg.run (Ygg.connectAction Ygg.host Ygg.bare))) =
  [Ygg.RegisterPassword " alice " "secret" ""].
Proof.
  apply (CommandLine.connect_prompts_for_both Ygg.host Ygg.bare " alice "
           (list_byte_of_string "secret") "box.example.test");
    reflexivity.
Defined.

Lemma connect_registered_skips_registration_witness :
  Ygg.registrations
    (snd (Ygg.run (Ygg.connectAction Ygg.registeredHost Ygg.bare))) = [] /\
  (fst (Ygg.run (Ygg.connectAction Ygg.registeredHost Ygg.bare)) = Ygg.Nil ->
   In Ygg.Activate
      (snd (Ygg.run (Ygg.connectAction Ygg.registeredHost Ygg.bare))) /\
   Ygg.activate Ygg.registeredHost = None).
Proof.
  apply (CommandLine.connect_registered_skips_registration Ygg.registeredHost
           Ygg.bare "6a1cbd2e-8c5e-4b8e-9f0a-1a2b3c4d5e6f");
    [reflexivity | discriminate].
Defined.

Lemma facts_table_sorted_witness :
  exists keys,
    Ygg.run (Ygg.factsAction Ygg.host "table") =
    (Ygg.Nil,
     Ygg.GetFacts
       :: map (fun k => Ygg.TabWrite
                          (Ygg.row {[ "cpu.arch" := "x86_64";
                                      "bios.vendor" := "SeaBIOS";
                                      "memory.total" := "16G" ]} k)) keys
       ++ [Ygg.TabFlush]) /\
    StronglySorted Ygg.ascending keys /\
    NoDup keys /\
    (forall k,
        In k keys <->
        exists v, ({[ "cpu.arch" := "x86_64"; "bios.vendor" := "SeaBIOS";
                      "memory.total" := "16G" ]} : gmap string string) !! k
                  = Some v) /\
    (forall k v,
        ({[ "cpu.arch" := "x86_64"; "bios.vendor" := "SeaBIOS";
            "memory.total" := "16G" ]} : gmap string string) !! k = Some v ->
        Ygg.row {[ "cpu.arch" := "x86_64"; "bios.vendor" := "SeaBIOS";
                   "memory.total" := "16G" ]} k
        = (k ++ Ygg.tab ++ v ++ Ygg.nl)%string).
Proof.
  apply (CommandLine.facts_table_sorted Ygg.host). reflexivity.
Defined.

Example facts_table_rows :
  Ygg.rows (snd (Ygg.run (Ygg.factsAction Ygg.host "table"))) =
  [("bios.vendor" ++ Ygg.tab ++ "SeaBIOS" ++ Ygg.nl)%string;
   ("cpu.arch" ++ Ygg.tab ++ "x86_64" ++ Ygg.nl)%string;
   ("memory.total" ++ Ygg.tab ++ "16G" ++ Ygg.nl)%string].
Proof. vm_compute. reflexivity. Qed.

Lemma facts_unsupported_format_witness :
  Ygg.run (Ygg.factsAction Ygg.host "yaml") =
  (Ygg.Exit (errorString "unsupported value for '--format': yaml") 1,
   [Ygg.GetFacts]).
Proof.
  apply (CommandLine.facts_unsupported_format Ygg.host "yaml"); discriminate.
Defined.
